(** * Madrassati Pro server: the device-bound access-request workflow

    A shallow embedding of [server.js].  The PostgreSQL database is a record
    of tables; every [await query(...)] of the source is one atomic statement
    of the type [query]; a route handler is a program [prog] that awaits
    statements one after the other, wrapped in the handler's [try]/[catch].
    The same programs are run sequentially (one request at a time) and
    interleaved statement by statement (two requests in flight).

    Request fields are taken at the type of the column they are compared
    with or stored in: student ids are integers of the [INTEGER] column,
    codes and device ids are strings, the reason of a rejection is a string
    or absent.  Timestamps are integers, and the time of the database clock
    is an argument of every run. *)

From stdpp Require Import gmap strings list fin_maps sorting.
From Stdlib Require QArith.

Local Open Scope string_scope.
Local Open Scope list_scope.
Local Open Scope Z_scope.

(** ** Tables (section 2 of the source, [createTables]) *)

(** Column type [REAL].  A score stands for the value the column holds.  How
    the store turns the number of a request into such a value (rounding, the
    refusal of a number out of range) is not modelled, and no property below
    speaks of the value a recorded score is stored as. *)
Definition real : Type := QArith_base.Q.

(** [students (id SERIAL PRIMARY KEY, name TEXT, code TEXT UNIQUE, school_id INTEGER)] *)
Record student_row := Student {
  st_id : Z;
  st_name : string;
  st_code : string;
  st_school_id : Z
}.

(** [access_requests (student_id INTEGER PRIMARY KEY, device_id TEXT,
    status TEXT DEFAULT 'PENDING', message TEXT, request_date TIMESTAMP)].
    The primary key is the key of the map that holds the table; [message] is
    the one column the handlers set to [NULL]. *)
Record request_row := Request {
  rq_device_id : string;
  rq_status : string;
  rq_message : option string;
  rq_request_date : Z
}.

(** [grades (id SERIAL PRIMARY KEY, student_id TEXT, subject TEXT, score REAL, timestamp)] *)
Record grade_row := Grade {
  gr_id : Z;
  gr_student_id : string;
  gr_subject : string;
  gr_score : real;
  gr_timestamp : Z
}.

(** [absences (id SERIAL PRIMARY KEY, student_id TEXT, date TEXT, reason TEXT, timestamp)] *)
Record absence_row := Absence {
  ab_id : Z;
  ab_student_id : string;
  ab_date : string;
  ab_reason : string;
  ab_timestamp : Z
}.

(** [notifications (id SERIAL PRIMARY KEY, type TEXT, title TEXT, message TEXT,
    target_id TEXT, timestamp)] *)
Record notification_row := Notification {
  nt_id : Z;
  nt_type : string;
  nt_title : string;
  nt_message : string;
  nt_target_id : string;
  nt_timestamp : Z
}.

(** The database: the five tables the routes touch, and the sequences behind
    the [SERIAL] columns.  Lists keep rows in insertion order. *)
Record db := Db {
  students : list student_row;
  access_requests : gmap Z request_row;
  grades : list grade_row;
  absences : list absence_row;
  notifications : list notification_row;
  students_id_seq : Z;
  grades_id_seq : Z;
  absences_id_seq : Z;
  notifications_id_seq : Z
}.

(** The state right after [createTables] on a fresh database. *)
Definition empty_db : db :=
  Db [] ∅ [] [] [] 1 1 1 1.

Definition PENDING : string := "PENDING".
Definition APPROVED : string := "APPROVED".
Definition REJECTED : string := "REJECTED".

Definition set_students (f : list student_row → list student_row) (nxt : Z) (d : db) : db :=
  Db (f (students d)) (access_requests d) (grades d) (absences d) (notifications d)
     nxt (grades_id_seq d) (absences_id_seq d) (notifications_id_seq d).

Definition set_access_requests (f : gmap Z request_row → gmap Z request_row) (d : db) : db :=
  Db (students d) (f (access_requests d)) (grades d) (absences d) (notifications d)
     (students_id_seq d) (grades_id_seq d) (absences_id_seq d) (notifications_id_seq d).

Definition set_grades (f : list grade_row → list grade_row) (nxt : Z) (d : db) : db :=
  Db (students d) (access_requests d) (f (grades d)) (absences d) (notifications d)
     (students_id_seq d) nxt (absences_id_seq d) (notifications_id_seq d).

Definition set_absences (f : list absence_row → list absence_row) (nxt : Z) (d : db) : db :=
  Db (students d) (access_requests d) (grades d) (f (absences d)) (notifications d)
     (students_id_seq d) (grades_id_seq d) nxt (notifications_id_seq d).

Definition set_notifications (f : list notification_row → list notification_row) (nxt : Z)
    (d : db) : db :=
  Db (students d) (access_requests d) (grades d) (absences d) (f (notifications d))
     (students_id_seq d) (grades_id_seq d) (absences_id_seq d) nxt.

(** ** Statements *)

(** [ORDER BY id DESC] on the notifications the student may see. *)
Fixpoint insert_desc (n : notification_row) (l : list notification_row) : list notification_row :=
  match l with
  | [] => [n]
  | m :: l' => if bool_decide (nt_id m ≤ nt_id n) then n :: l else m :: insert_desc n l'
  end.

Definition order_by_id_desc (l : list notification_row) : list notification_row :=
  foldr insert_desc [] l.

(** One constructor per SQL text of the source; the index is the type of
    [result.rows] (or [unit] for a write, whose result the source drops). *)
Inductive query : Type → Type :=
  (** [SELECT id, name FROM students WHERE code = $1] *)
  | SelectStudentByCode (code : string) : query (list (Z * string))
  (** [SELECT device_id, status, message FROM access_requests WHERE student_id = $1] *)
  | SelectRequest (student_id : Z) : query (list (string * string * option string))
  (** [INSERT INTO access_requests (student_id, device_id, status) VALUES ($1, $2, 'PENDING')] *)
  | InsertRequest (student_id : Z) (device_id : string) : query unit
  (** [SELECT status, message FROM access_requests WHERE student_id = $1] *)
  | SelectAccess (student_id : Z) : query (list (string * option string))
  (** [SELECT code FROM students WHERE id = $1] *)
  | SelectStudentCode (student_id : Z) : query (list string)
  (** [SELECT type, title, message, timestamp FROM notifications
      WHERE target_id = $1 OR target_id = 'ALL' ORDER BY id DESC] *)
  | SelectNotifications (code : string) : query (list (string * string * string * Z))
  (** [SELECT date, reason FROM absences WHERE student_id = $1] *)
  | SelectAbsences (code : string) : query (list (string * string))
  (** [SELECT subject, score FROM grades WHERE student_id = $1] *)
  | SelectGrades (code : string) : query (list (string * real))
  (** [UPDATE access_requests SET status = 'APPROVED', message = NULL WHERE student_id = $1] *)
  | UpdateApprove (student_id : Z) : query unit
  (** [UPDATE access_requests SET status = 'REJECTED', message = $1 WHERE student_id = $2] *)
  | UpdateReject (reason : option string) (student_id : Z) : query unit
  (** [DELETE FROM access_requests WHERE student_id = $1] *)
  | DeleteRequest (student_id : Z) : query unit
  (** [INSERT INTO students (name, code, school_id) VALUES ($1, $2, $3)
      ON CONFLICT (code) DO NOTHING] *)
  | InsertStudent (name code : string) (school_id : Z) : query unit
  (** [INSERT INTO grades (student_id, subject, score) VALUES ($1, $2, $3)] *)
  | InsertGrade (student_id subject : string) (score : real) : query unit
  (** [INSERT INTO absences (student_id, date, reason) VALUES ($1, $2, $3)] *)
  | InsertAbsence (student_id date reason : string) : query unit
  (** [INSERT INTO notifications (type, title, message, target_id) VALUES ($1, $2, $3, $4)] *)
  | InsertNotification (type title message target_id : string) : query unit.

Definition approve_row (r : request_row) : request_row :=
  Request (rq_device_id r) APPROVED None (rq_request_date r).

Definition reject_row (reason : option string) (r : request_row) : request_row :=
  Request (rq_device_id r) REJECTED reason (rq_request_date r).

(** The rows of each [SELECT].  A table scan keeps the insertion order where
    the text has no [ORDER BY]. *)
Definition select_student_by_code (code : string) (d : db) : list (Z * string) :=
  (λ s, (st_id s, st_name s)) <$> filter (λ s, st_code s = code) (students d).

Definition select_request (student_id : Z) (d : db) : list (string * string * option string) :=
  option_list ((λ r, (rq_device_id r, rq_status r, rq_message r)) <$> access_requests d !! student_id).

Definition select_access (student_id : Z) (d : db) : list (string * option string) :=
  option_list ((λ r, (rq_status r, rq_message r)) <$> access_requests d !! student_id).

Definition select_student_code (student_id : Z) (d : db) : list string :=
  st_code <$> filter (λ s, st_id s = student_id) (students d).

Definition select_notifications (code : string) (d : db) : list (string * string * string * Z) :=
  (λ n, (nt_type n, nt_title n, nt_message n, nt_timestamp n)) <$>
    order_by_id_desc
      (filter (λ n, nt_target_id n = code ∨ nt_target_id n = "ALL") (notifications d)).

Definition select_absences (code : string) (d : db) : list (string * string) :=
  (λ a, (ab_date a, ab_reason a)) <$> filter (λ a, ab_student_id a = code) (absences d).

Definition select_grades (code : string) (d : db) : list (string * real) :=
  (λ g, (gr_subject g, gr_score g)) <$> filter (λ g, gr_student_id g = code) (grades d).

(** The effect of one statement at database time [now]: the rows it returns,
    or [None] when PostgreSQL raises (the promise rejects), and the database
    after it.  The one statement that can raise here is the plain [INSERT]
    into [access_requests], on a duplicate primary key.  A [SERIAL] id is
    drawn from its sequence before [ON CONFLICT] is looked at.  The refusals
    of the store for a parameter it cannot take (a text holding a zero byte,
    a number outside its column type) are not modelled: parameters range over
    the values the columns hold. *)
Definition exec_query {A} (now : Z) (q : query A) (d : db) : option A * db :=
  match q in query T return option T * db with
  | SelectStudentByCode code => (Some (select_student_by_code code d), d)
  | SelectRequest sid => (Some (select_request sid d), d)
  | InsertRequest sid device =>
      match access_requests d !! sid with
      | Some _ => (None, d)
      | None => (Some (), set_access_requests <[sid := Request device PENDING None now]> d)
      end
  | SelectAccess sid => (Some (select_access sid d), d)
  | SelectStudentCode sid => (Some (select_student_code sid d), d)
  | SelectNotifications code => (Some (select_notifications code d), d)
  | SelectAbsences code => (Some (select_absences code d), d)
  | SelectGrades code => (Some (select_grades code d), d)
  | UpdateApprove sid => (Some (), set_access_requests (alter approve_row sid) d)
  | UpdateReject reason sid => (Some (), set_access_requests (alter (reject_row reason) sid) d)
  | DeleteRequest sid => (Some (), set_access_requests (delete sid) d)
  | InsertStudent name code school =>
      let id := students_id_seq d in
      if bool_decide (code ∈ st_code <$> students d)
      then (Some (), set_students (λ l, l) (id + 1) d)
      else (Some (), set_students (λ l, l ++ [Student id name code school]) (id + 1) d)
  | InsertGrade sid subject score =>
      let id := grades_id_seq d in
      (Some (), set_grades (λ l, l ++ [Grade id sid subject score now]) (id + 1) d)
  | InsertAbsence sid date reason =>
      let id := absences_id_seq d in
      (Some (), set_absences (λ l, l ++ [Absence id sid date reason now]) (id + 1) d)
  | InsertNotification type title message target =>
      let id := notifications_id_seq d in
      (Some (), set_notifications (λ l, l ++ [Notification id type title message target now])
                  (id + 1) d)
  end.

(** ** Handlers as programs *)

Inductive prog (R : Type) : Type :=
  | Ret (r : R)
  | Await {A : Type} (q : query A) (k : A → prog R).
Arguments Ret {R} r.
Arguments Await {R A} q k.

Notation "x ← 'await' q ; k" := (Await q (λ x, k))
  (at level 20, q at level 100, k at level 200, right associativity,
   format "'[v' x  ←  'await'  q ; '/' k ']'").
Notation "'await' q ; k" := (Await q (λ _, k))
  (at level 20, q at level 100, k at level 200, right associativity,
   format "'[v' 'await'  q ; '/' k ']'").

(** The [try] block run to its end: [None] when a statement raised. *)
Fixpoint run {R} (now : Z) (p : prog R) (d : db) : option R * db :=
  match p with
  | Ret r => (Some r, d)
  | Await q k =>
      match exec_query now q d with
      | (Some a, d') => run now (k a) d'
      | (None, d') => (None, d')
      end
  end.

(** [try { body } catch (err) { on_error }] *)
Definition try_catch {R} (body : prog R) (on_error : R) (now : Z) (d : db) : R * db :=
  match run now body d with
  | (Some r, d') => (r, d')
  | (None, d') => (on_error, d')
  end.

(** ** Route [POST /api/login] *)

(** The three bodies the route sends.  [LoginStudent] is
    [{ success: true, student: { id, full_name, secret_code, status, message? } }];
    its last argument is [None] when the object has no [message] key and
    [Some m] when it has one ([m] itself may be SQL [NULL]).  [LoginRefused]
    is [{ success: false, message }] with status 200, [LoginServerError] the
    same shape sent with status 500 from the [catch]. *)
Inductive login_response :=
  | LoginStudent (id : Z) (full_name secret_code status : string)
                 (message : option (option string))
  | LoginRefused (message : string)
  | LoginServerError (message : string).

Definition msg_invalid_code : string := "Code matricule incorrect".
Definition msg_device_mismatch : string := "Ce code est déjà lié à un autre téléphone.".
Definition msg_login_error : string := "Erreur serveur lors de la connexion.".

Definition login_body (code device_id : string) : prog login_response :=
  studentResult ← await SelectStudentByCode code;
  match head studentResult with
  | None => Ret (LoginRefused msg_invalid_code)
  | Some (id, name) =>
      requestResult ← await SelectRequest id;
      match head requestResult with
      | None =>
          await InsertRequest id device_id;
          Ret (LoginStudent id name code PENDING None)
      | Some (request_device_id, request_status, request_message) =>
          if bool_decide (request_device_id = device_id) then
            if bool_decide (request_status = REJECTED)
            then Ret (LoginStudent id name code REJECTED (Some request_message))
            else Ret (LoginStudent id name code request_status None)
          else Ret (LoginRefused msg_device_mismatch)
      end
  end.

Definition login (now : Z) (code device_id : string) (d : db) : login_response * db :=
  try_catch (login_body code device_id) (LoginServerError msg_login_error) now d.

(** ** Route [GET /api/my-grades/:id] *)

(** JavaScript's [access && e]: [undefined] (here [None]) when [access] is
    [undefined], the value of [e] otherwise. *)
Definition js_and {A B} (x : option A) (e : A → B) : option B := e <$> x.

(** Truthiness of a value that is [undefined] or a boolean. *)
Definition truthy (v : option bool) : bool := default false v.

(** [(access && access.message) ? access.message : ''] : a [NULL] or empty
    message is falsy. *)
Definition rejection_msg (access : option (string * option string)) : string :=
  match access with
  | Some (_, Some m) => if bool_decide (m = "") then "" else m
  | _ => ""
  end.

(** The bodies of the route.  [ViewLocked] carries [isRejected] as the
    JavaScript value it is: [None] is [undefined], and [res.json] leaves a key
    with that value out of the text it sends.  Its [grades] is the literal
    [[]] of the source. *)
Inductive view_response :=
  | ViewNotFound (error : string)
  | ViewUnlocked (notifications : list (string * string * string * Z))
                 (absences : list (string * string))
                 (grades : list (string * real))
  | ViewLocked (rejected : option bool) (reject_reason : string)
               (notifications : list (string * string * string * Z))
               (absences : list (string * string))
  | ViewServerError (error : string).

Definition msg_not_found : string := "Élève introuvable".
Definition msg_view_error : string := "Erreur serveur lors de la récupération des données.".

Definition my_grades_body (studentId : Z) : prog view_response :=
  accessResult ← await SelectAccess studentId;
  let access := head accessResult in
  let isApproved := js_and access (λ a, bool_decide (a.1 = APPROVED)) in
  let isRejected := js_and access (λ a, bool_decide (a.1 = REJECTED)) in
  let rejectionMsg := rejection_msg access in
  studentResult ← await SelectStudentCode studentId;
  match head studentResult with
  | None => Ret (ViewNotFound msg_not_found)
  | Some code =>
      notifs ← await SelectNotifications code;
      absences ← await SelectAbsences code;
      if truthy isApproved then
        gradesResult ← await SelectGrades code;
        Ret (ViewUnlocked notifs absences gradesResult)
      else
        Ret (ViewLocked isRejected rejectionMsg notifs absences)
  end.

Definition my_grades (now : Z) (studentId : Z) (d : db) : view_response * db :=
  try_catch (my_grades_body studentId) (ViewServerError msg_view_error) now d.

(** Reading the fields of the body a client receives. *)
Definition view_locked (v : view_response) : option bool :=
  match v with
  | ViewUnlocked _ _ _ => Some false
  | ViewLocked _ _ _ _ => Some true
  | _ => None
  end.

Definition view_rejected (v : view_response) : option bool :=
  match v with
  | ViewLocked rejected _ _ _ => rejected
  | _ => None
  end.

Definition view_reject_reason (v : view_response) : option string :=
  match v with
  | ViewLocked _ reason _ _ => Some reason
  | _ => None
  end.

Definition view_notifications (v : view_response) : option (list (string * string * string * Z)) :=
  match v with
  | ViewUnlocked n _ _ | ViewLocked _ _ n _ => Some n
  | _ => None
  end.

Definition view_absences (v : view_response) : option (list (string * string)) :=
  match v with
  | ViewUnlocked _ a _ | ViewLocked _ _ _ a => Some a
  | _ => None
  end.

Definition view_grades (v : view_response) : option (list (string * real)) :=
  match v with
  | ViewUnlocked _ _ g => Some g
  | ViewLocked _ _ _ _ => Some []
  | _ => None
  end.

(** ** Admin routes *)

(** [{ success: true }] with status 200, or [{ success: false }] with 500. *)
Inductive admin_response := AdminDone (success : bool).

Definition approve_body (student_id : Z) : prog admin_response :=
  await UpdateApprove student_id;
  Ret (AdminDone true).

Definition approve (now : Z) (student_id : Z) (d : db) : admin_response * db :=
  try_catch (approve_body student_id) (AdminDone false) now d.

(** [reason] is [None] when the body has no [reason]: the parameter is then
    bound as [NULL]. *)
Definition reject_body (student_id : Z) (reason : option string) : prog admin_response :=
  await UpdateReject reason student_id;
  Ret (AdminDone true).

Definition reject (now : Z) (student_id : Z) (reason : option string) (d : db)
    : admin_response * db :=
  try_catch (reject_body student_id reason) (AdminDone false) now d.

Definition reset_body (student_id : Z) : prog admin_response :=
  await DeleteRequest student_id;
  Ret (AdminDone true).

Definition reset (now : Z) (student_id : Z) (d : db) : admin_response * db :=
  try_catch (reset_body student_id) (AdminDone false) now d.

(** ** Roster import and the recording routes *)

(** The loop of [POST /upload] over the rows of the sheet.  A row is given as
    the name the chain [row.Nom || row.nom || ... || "Inconnu"] picks and the
    code [generateStudentCode()] draws for it; the result is [count]. *)
Fixpoint upload_loop (data : list (string * string)) (count : nat) : prog nat :=
  match data with
  | [] => Ret count
  | (name, newCode) :: rest =>
      if bool_decide (name ≠ "Inconnu") then
        await InsertStudent name newCode 1;
        upload_loop rest (S count)
      else upload_loop rest count
  end.

(** [{ message: `Succès : ${count} ...` }], or the 500 of the [catch]. *)
Inductive upload_response := UploadDone (count : nat) | UploadError.

(** The loop runs between [BEGIN] and [COMMIT]; the [catch] rolls back. *)
Definition upload (now : Z) (data : list (string * string)) (d : db) : upload_response * db :=
  match run now (upload_loop data 0) d with
  | (Some count, d') => (UploadDone count, d')
  | (None, _) => (UploadError, d)
  end.

(** [{ message: "OK" }], or [{ error: "Erreur serveur." }] with status 500. *)
Inductive record_response := RecordOk | RecordError.

Definition post_grades (now : Z) (student_id subject : string) (score : real) (d : db)
    : record_response * db :=
  try_catch (await InsertGrade student_id subject score; Ret RecordOk) RecordError now d.

Definition post_absences (now : Z) (student_id date reason : string) (d : db)
    : record_response * db :=
  try_catch (await InsertAbsence student_id date reason; Ret RecordOk) RecordError now d.

Definition post_notifications (now : Z) (type title message target_id : string) (d : db)
    : record_response * db :=
  try_catch (await InsertNotification type title message target_id; Ret RecordOk)
            RecordError now d.

(** ** Requests and reachable databases *)

(** The requests that run statements against the five tables.  The two
    listing routes ([GET /api/admin/requests], [GET /api/students]) each run
    one [SELECT] and are left out. *)
Inductive request :=
  | PostLogin (code device_id : string)
  | GetMyGrades (id : Z)
  | PostApprove (student_id : Z)
  | PostReject (student_id : Z) (reason : option string)
  | PostReset (student_id : Z)
  | PostUpload (data : list (string * string))
  | PostGrades (student_id subject : string) (score : real)
  | PostAbsences (student_id date reason : string)
  | PostNotifications (type title message target_id : string).

(** The database after the server has answered one request at time [now]. *)
Definition serve (now : Z) (r : request) (d : db) : db :=
  match r with
  | PostLogin code device_id => (login now code device_id d).2
  | GetMyGrades id => (my_grades now id d).2
  | PostApprove student_id => (approve now student_id d).2
  | PostReject student_id reason => (reject now student_id reason d).2
  | PostReset student_id => (reset now student_id d).2
  | PostUpload data => (upload now data d).2
  | PostGrades student_id subject score => (post_grades now student_id subject score d).2
  | PostAbsences student_id date reason => (post_absences now student_id date reason d).2
  | PostNotifications type title message target_id =>
      (post_notifications now type title message target_id d).2
  end.

(** A history: requests with the time each was served, oldest first. *)
Definition serve_all (h : list (Z * request)) (d : db) : db :=
  foldl (λ d' e, serve e.1 e.2 d') d h.

(** The databases the server can be in: those a history builds from the
    empty tables. *)
Definition reachable (d : db) : Prop := ∃ h, d = serve_all h empty_db.

(** ** Two logins in flight *)

(** A handler between two statements is the rest of its program; [Ret r] is
    a handler that has answered [r].  One step runs the statement it awaits;
    a statement that raises takes the handler to its [catch]. *)
Definition thread_step {R} (on_error : R) (now : Z) (p : prog R) (d : db) : prog R * db :=
  match p with
  | Ret r => (Ret r, d)
  | Await q k =>
      match exec_query now q d with
      | (Some a, d') => (k a, d')
      | (None, d') => (Ret on_error, d')
      end
  end.

Definition answer {R} (p : prog R) : option R :=
  match p with
  | Ret r => Some r
  | Await _ _ => None
  end.

(** The shared database and the two [POST /api/login] handlers. *)
Record race := Race {
  race_db : db;
  race_first : prog login_response;
  race_second : prog login_response
}.

(** The scheduler lets the first ([true]) or the second ([false]) handler run
    its next statement, at database time [now]. *)
Definition race_step (pick : bool) (now : Z) (c : race) : race :=
  if pick then
    let '(p, d) := thread_step (LoginServerError msg_login_error) now (race_first c) (race_db c) in
    Race d p (race_second c)
  else
    let '(p, d) := thread_step (LoginServerError msg_login_error) now (race_second c) (race_db c) in
    Race d (race_first c) p.

Definition race_run (sched : list (bool * Z)) (c : race) : race :=
  foldl (λ c' e, race_step e.1 e.2 c') c sched.

Definition race_start (code device1 device2 : string) (d : db) : race :=
  Race d (login_body code device1) (login_body code device2).

(** How many statements each handler is given by a schedule. *)
Definition turns (pick : bool) (sched : list (bool * Z)) : nat :=
  length (filter (λ e, e.1 = pick) sched).

(** ** Invariants of the tables *)

(** [rows[0]] of the student lookup by code, as a whole row. *)
Definition student_of_code (code : string) (d : db) : option student_row :=
  head (filter (λ s, st_code s = code) (students d)).

(** [rows[0]] of the student lookup by id. *)
Definition student_of_id (id : Z) (d : db) : option student_row :=
  head (filter (λ s, st_id s = id) (students d)).

(** What [UNIQUE] on [students.code] and the handlers together maintain:
    codes are pairwise distinct; ids come from the sequence; a request row
    belongs to a student row; a request's status is one of the three words
    the handlers write; an approved request has no message. *)
Record db_inv (d : db) : Prop := DbInv {
  inv_codes : NoDup (st_code <$> students d);
  inv_ids : ∀ s, s ∈ students d → st_id s < students_id_seq d;
  inv_ids_distinct : NoDup (st_id <$> students d);
  inv_owner : ∀ sid, is_Some (access_requests d !! sid) → ∃ s, s ∈ students d ∧ st_id s = sid;
  inv_status : ∀ sid r, access_requests d !! sid = Some r →
                 rq_status r ∈ [PENDING; APPROVED; REJECTED];
  inv_approved : ∀ sid r, access_requests d !! sid = Some r →
                   rq_status r = APPROVED → rq_message r = None
}.

(** A row a handler may write: its status is one of the three words, and it
    has no message when approved. *)
Definition good_row (r : request_row) : Prop :=
  rq_status r ∈ [PENDING; APPROVED; REJECTED] ∧ (rq_status r = APPROVED → rq_message r = None).

(** ** The login handler between its statements *)

(** What is left of [login_body] once the student is found ... *)
Definition login_found (id : Z) (name code device_id : string) : prog login_response :=
  requestResult ← await SelectRequest id;
  match head requestResult with
  | None =>
      await InsertRequest id device_id;
      Ret (LoginStudent id name code PENDING None)
  | Some (request_device_id, request_status, request_message) =>
      if bool_decide (request_device_id = device_id) then
        if bool_decide (request_status = REJECTED)
        then Ret (LoginStudent id name code REJECTED (Some request_message))
        else Ret (LoginStudent id name code request_status None)
      else Ret (LoginRefused msg_device_mismatch)
  end.

(** ... and once it has seen that the student has no request row. *)
Definition login_insert (id : Z) (name code device_id : string) : prog login_response :=
  await InsertRequest id device_id;
  Ret (LoginStudent id name code PENDING None).

(** [login_at id name code device n p]: [p] is the login handler of [device]
    with at most [n] statements still to run, and at least one. *)
Inductive login_at (id : Z) (name code device_id : string) :
    nat → prog login_response → Prop :=
  | login_at_start : login_at id name code device_id 3 (login_body code device_id)
  | login_at_found : login_at id name code device_id 2 (login_found id name code device_id)
  | login_at_insert : login_at id name code device_id 1 (login_insert id name code device_id).

(** [looked_first code device1 device2 d b sched]: at some moment of the
    schedule of a race started in [d], handler [b] has run its second
    statement, the lookup of the request, and no row is written yet. *)
Definition looked_first (code device1 device2 : string) (d : db) (b : bool)
    (sched : list (bool * Z)) : Prop :=
  ∃ q, q `prefix_of` sched ∧ (2 ≤ turns b q)%nat ∧
       race_db (race_run q (race_start code device1 device2 d)) = d.

(** The handler that does not get the binding, after [n] of its statements.
    [looked] says whether its lookup ran while no row was written.  Before
    its lookup it is where any login handler is; a lookup that ran too early
    takes it to its insert, and from there to the server error; a lookup
    that ran after the other's insert is answered with the refusal. *)
Inductive loser_at (id : Z) (name code device_id : string) (looked : Prop) :
    nat → prog login_response → Prop :=
  | loser_early n p :
      (n < 2)%nat → login_at id name code device_id (3 - n) p →
      loser_at id name code device_id looked n p
  | loser_late :
      looked → loser_at id name code device_id looked 2 (login_insert id name code device_id)
  | loser_refused n :
      (2 ≤ n)%nat → ¬ looked →
      loser_at id name code device_id looked n (Ret (LoginRefused msg_device_mismatch))
  | loser_failed n :
      (3 ≤ n)%nat → looked →
      loser_at id name code device_id looked n (Ret (LoginServerError msg_login_error)).

(** The states of a race of two first logins for student [s] of database
    [d], from [device1] and [device2], after the schedule [sched].  Either
    no row is written yet and each handler is where its turns have taken it,
    or exactly one handler has written its row and answered. *)
Inductive race_inv (d : db) (s : student_row) (code device1 device2 : string)
    (sched : list (bool * Z)) : race → Prop :=
  | race_open p1 p2 :
      login_at (st_id s) (st_name s) code device1 (3 - turns true sched) p1 →
      login_at (st_id s) (st_name s) code device2 (3 - turns false sched) p2 →
      race_inv d s code device1 device2 sched (Race d p1 p2)
  | race_first_won t p2 :
      (3 ≤ turns true sched)%nat →
      loser_at (st_id s) (st_name s) code device2
        (looked_first code device1 device2 d false sched) (turns false sched) p2 →
      race_inv d s code device1 device2 sched
        (Race (set_access_requests <[st_id s := Request device1 PENDING None t]> d)
              (Ret (LoginStudent (st_id s) (st_name s) code PENDING None)) p2)
  | race_second_won t p1 :
      (3 ≤ turns false sched)%nat →
      loser_at (st_id s) (st_name s) code device1
        (looked_first code device1 device2 d true sched) (turns true sched) p1 →
      race_inv d s code device1 device2 sched
        (Race (set_access_requests <[st_id s := Request device2 PENDING None t]> d)
              p1 (Ret (LoginStudent (st_id s) (st_name s) code PENDING None))).

(** One handler scheduled alone for [fuel] statements. *)
Fixpoint thread_run {R} (on_error : R) (now : Z) (fuel : nat) (p : prog R) (d : db)
    : prog R * db :=
  match fuel with
  | O => (p, d)
  | S fuel' =>
      let '(p', d') := thread_step on_error now p d in
      thread_run on_error now fuel' p' d'
  end.

(** Both handlers read before either writes. *)
Definition sched_alternate : list (bool * Z) :=
  [(true, 11); (false, 12); (true, 13); (false, 14); (true, 15); (false, 16)].

(** The first handler answers before the second starts. *)
Definition sched_in_turn : list (bool * Z) :=
  [(true, 11); (true, 12); (true, 13); (false, 14); (false, 15); (false, 16)].

(** ** Sample databases *)

(** Two students imported into the empty tables. *)
Definition db_roster : db :=
  (upload 0 [("Amine Haddad", "AB-1234"); ("Lina Saidi", "CD-5678")] empty_db).2.

(** The first of them has logged in from [phone-A]. *)
Definition db_bound : db := (login 10 "AB-1234" "phone-A" db_roster).2.

(** ** Student codes (section 3 of the source) *)

Definition chars : string := "ABCDEFGHIJKLMNOPQRSTUVWXYZ".
Definition nums : string := "0123456789".

(** [s.charAt(i)]: the one-character string at index [i], the empty string
    past the end. *)
Definition charAt (s : string) (i : nat) : string :=
  match String.get i s with
  | Some c => String c ""
  | None => ""
  end.

(** [for (let i = 0; i < n; i++) code += alphabet.charAt(Math.floor(Math.random() * alphabet.length))].
    [random k m] stands for the value of [Math.floor(Math.random() * m)] at
    the [k]-th call of [Math.random]. *)
Fixpoint draw_chars (alphabet : string) (n : nat) (random : nat → nat → nat) (k : nat)
    (code : string) : string :=
  match n with
  | O => code
  | S n' =>
      draw_chars alphabet n' random (S k)
        (code +:+ charAt alphabet (random k (String.length alphabet)))
  end.

(** [generateStudentCode()], called when [k] numbers have been drawn. *)
Definition generateStudentCode (random : nat → nat → nat) (k : nat) : string :=
  let code := "" in
  let code := draw_chars chars 2 random k code in
  let code := code +:+ "-" in
  draw_chars nums 4 random (k + 2) code.

Definition is_capital (c : Ascii.ascii) : bool :=
  (65 <=? Ascii.nat_of_ascii c)%nat && (Ascii.nat_of_ascii c <=? 90)%nat.

Definition is_digit (c : Ascii.ascii) : bool :=
  (48 <=? Ascii.nat_of_ascii c)%nat && (Ascii.nat_of_ascii c <=? 57)%nat.

(** Two capital letters, a dash, four digits. *)
Definition code_format (code : string) : bool :=
  match code with
  | String a (String b (String m (String w (String x (String y (String z EmptyString)))))) =>
      is_capital a && is_capital b && (Ascii.nat_of_ascii m =? 45)%nat &&
      is_digit w && is_digit x && is_digit y && is_digit z
  | _ => false
  end.

(** What [Math.floor(Math.random() * m)] promises: an index below [m]. *)
Definition in_range (random : nat → nat → nat) : Prop :=
  ∀ k m, (0 < m)%nat → (random k m < m)%nat.

(** ** The codes of an import *)

(** The names and the codes the loop of [POST /upload] works with: for each
    row the name the chain picks, and for a row with a name other than
    "Inconnu" the code [generateStudentCode()] draws at that point.  [k]
    numbers have been drawn before the first row. *)
Fixpoint drawn_data (names : list string) (random : nat → nat → nat) (k : nat)
    : list (string * string) :=
  match names with
  | [] => []
  | name :: rest =>
      if bool_decide (name ≠ "Inconnu")
      then (name, generateStudentCode random k) :: drawn_data rest random (k + 6)
      else (name, "") :: drawn_data rest random k
  end.

(** The route with the codes it draws itself. *)
Definition upload_drawn (now : Z) (names : list string) (random : nat → nat → nat) (k : nat)
    (d : db) : upload_response * db :=
  upload now (drawn_data names random k) d.

(** ** The listing routes *)

(** [GET /api/students]: [SELECT * FROM students ORDER BY id DESC]. *)
Definition by_id_desc (a b : student_row) : Prop := st_id b ≤ st_id a.

Definition list_students (d : db) : list student_row :=
  @merge_sort _ by_id_desc (λ a b, decide (st_id b ≤ st_id a)) (students d).

(** A row of [GET /api/admin/requests]. *)
Record admin_row := AdminRow {
  ad_student_id : Z;
  ad_name : string;
  ad_code : string;
  ad_status : string;
  ad_message : option string;
  ad_request_date : Z
}.

(** [FROM access_requests ar JOIN students s ON ar.student_id = s.id] *)
Definition join_requests (d : db) : list admin_row :=
  map_to_list (access_requests d) ≫= λ ar,
    (λ s, AdminRow ar.1 (st_name s) (st_code s)
            (rq_status ar.2) (rq_message ar.2) (rq_request_date ar.2)) <$>
      filter (λ s, st_id s = ar.1) (students d).

(** [... ORDER BY ar.request_date DESC].  PostgreSQL fixes no order among
    rows of one date; the sort used here puts them in some order. *)
Definition by_date_desc (a b : admin_row) : Prop := ad_request_date b ≤ ad_request_date a.

Definition list_requests (d : db) : list admin_row :=
  @merge_sort _ by_date_desc (λ a b, decide (ad_request_date b ≤ ad_request_date a))
    (join_requests d).

(** ** More invariants of the tables *)

(** Ids grow with the insertion order, below their sequence; and a request
    has a message only when it is rejected. *)
Record db_order (d : db) : Prop := DbOrder {
  ord_students : StronglySorted (λ a b, st_id a < st_id b) (students d);
  ord_notifications : StronglySorted (λ a b, nt_id a < nt_id b) (notifications d);
  ord_notifications_seq : ∀ n, n ∈ notifications d → nt_id n < notifications_id_seq d;
  ord_message : ∀ sid r, access_requests d !! sid = Some r →
                  is_Some (rq_message r) → rq_status r = REJECTED
}.

(** The student an admin request is about. *)
Definition admin_target (r : request) : option Z :=
  match r with
  | PostApprove student_id | PostReject student_id _ | PostReset student_id => Some student_id
  | _ => None
  end.

(** ** Two logins of one device in flight *)

(** The handler that did not write the row, when both come from the device
    that holds it: still running, or answered success, or answered the
    server error. *)
Inductive twin_at (id : Z) (name code device_id : string) :
    nat → prog login_response → Prop :=
  | twin_running n p :
      login_at id name code device_id n p → twin_at id name code device_id n p
  | twin_granted n :
      twin_at id name code device_id n (Ret (LoginStudent id name code PENDING None))
  | twin_failed n :
      twin_at id name code device_id n (Ret (LoginServerError msg_login_error)).

Inductive twin_inv (d : db) (s : student_row) (code device_id : string) :
    nat → nat → race → Prop :=
  | twin_open n1 n2 p1 p2 :
      login_at (st_id s) (st_name s) code device_id n1 p1 →
      login_at (st_id s) (st_name s) code device_id n2 p2 →
      twin_inv d s code device_id n1 n2 (Race d p1 p2)
  | twin_first_wrote t n2 p2 :
      twin_at (st_id s) (st_name s) code device_id n2 p2 →
      twin_inv d s code device_id 0 n2
        (Race (set_access_requests <[st_id s := Request device_id PENDING None t]> d)
              (Ret (LoginStudent (st_id s) (st_name s) code PENDING None)) p2)
  | twin_second_wrote t n1 p1 :
      twin_at (st_id s) (st_name s) code device_id n1 p1 →
      twin_inv d s code device_id n1 0
        (Race (set_access_requests <[st_id s := Request device_id PENDING None t]> d)
              p1 (Ret (LoginStudent (st_id s) (st_name s) code PENDING None))).

(** * Properties *)

(** ** What the statements the handlers rely on return *)

Lemma head_fmap {A B} (f : A → B) (l : list A) : head (f <$> l) = f <$> head l.
Proof. by destruct l. Qed.

Lemma head_option_list {A} (o : option A) : head (option_list o) = o.
Proof. by destruct o. Qed.

(** [login_found] and [login_insert] are the two tails of [login_body]. *)
Lemma login_body_tails code device_id :
  login_body code device_id =
    (studentResult ← await SelectStudentByCode code;
     match head studentResult with
     | None => Ret (LoginRefused msg_invalid_code)
     | Some (id, name) => login_found id name code device_id
     end) ∧
  ∀ id name,
    login_found id name code device_id =
      (requestResult ← await SelectRequest id;
       match head requestResult with
       | None => login_insert id name code device_id
       | Some (request_device_id, request_status, request_message) =>
           if bool_decide (request_device_id = device_id) then
             if bool_decide (request_status = REJECTED)
             then Ret (LoginStudent id name code REJECTED (Some request_message))
             else Ret (LoginStudent id name code request_status None)
           else Ret (LoginRefused msg_device_mismatch)
       end).
Proof. split; reflexivity. Qed.

(** The decision table of the login route, one request at a time. *)
Lemma login_spec now code device_id d :
  login now code device_id d =
    match student_of_code code d with
    | None => (LoginRefused msg_invalid_code, d)
    | Some s =>
        match access_requests d !! st_id s with
        | None =>
            (LoginStudent (st_id s) (st_name s) code PENDING None,
             set_access_requests <[st_id s := Request device_id PENDING None now]> d)
        | Some r =>
            (if bool_decide (rq_device_id r = device_id) then
               if bool_decide (rq_status r = REJECTED)
               then LoginStudent (st_id s) (st_name s) code REJECTED (Some (rq_message r))
               else LoginStudent (st_id s) (st_name s) code (rq_status r) None
             else LoginRefused msg_device_mismatch, d)
        end
    end.
Proof.
  unfold login, try_catch, login_body, student_of_code. simpl.
  unfold select_student_by_code. rewrite head_fmap.
  destruct (head (filter _ (students d))) as [s|]; simpl; [|done].
  unfold select_request. rewrite head_option_list.
  destruct (access_requests d !! st_id s) as [r|] eqn:Hr; simpl.
  - repeat case_bool_decide; done.
  - by rewrite Hr.
Qed.

(** The answer of the grades route, one request at a time; it writes nothing. *)
Lemma my_grades_spec now id d :
  my_grades now id d =
    (match student_of_id id d with
     | None => ViewNotFound msg_not_found
     | Some s =>
         match access_requests d !! id with
         | Some r =>
             if bool_decide (rq_status r = APPROVED)
             then ViewUnlocked (select_notifications (st_code s) d)
                               (select_absences (st_code s) d)
                               (select_grades (st_code s) d)
             else ViewLocked (Some (bool_decide (rq_status r = REJECTED)))
                             (rejection_msg (Some (rq_status r, rq_message r)))
                             (select_notifications (st_code s) d)
                             (select_absences (st_code s) d)
         | None => ViewLocked None ""
                              (select_notifications (st_code s) d)
                              (select_absences (st_code s) d)
         end
     end, d).
Proof.
  unfold my_grades, try_catch, my_grades_body, student_of_id. simpl.
  unfold select_student_code. rewrite head_fmap.
  destruct (head (filter _ (students d))) as [s|]; simpl; [|done].
  unfold select_access. rewrite head_option_list.
  destruct (access_requests d !! id) as [r|]; simpl; [|done].
  by case_bool_decide.
Qed.

Lemma approve_spec now student_id d :
  approve now student_id d =
    (AdminDone true, set_access_requests (alter approve_row student_id) d).
Proof. reflexivity. Qed.

Lemma reject_spec now student_id reason d :
  reject now student_id reason d =
    (AdminDone true, set_access_requests (alter (reject_row reason) student_id) d).
Proof. reflexivity. Qed.

Lemma reset_spec now student_id d :
  reset now student_id d = (AdminDone true, set_access_requests (delete student_id) d).
Proof. reflexivity. Qed.

Lemma set_access_requests_id d : set_access_requests (λ m, m) d = d.
Proof. by destruct d. Qed.

Lemma set_access_requests_same f d :
  f (access_requests d) = access_requests d → set_access_requests f d = d.
Proof. destruct d; unfold set_access_requests; simpl. by intros ->. Qed.

(** ** Looking a student up *)

Section first_match.
Context {A K : Type} `{EqDecision K} (key : A → K).

(** With pairwise distinct keys, the first row a key selects is the row. *)
Lemma head_filter_key (l : list A) (x : A) :
  NoDup (key <$> l) → x ∈ l → head (filter (λ y, key y = key x) l) = Some x.
Proof.
  induction l as [|y l IH]; intros Hnd Hin; [by inversion Hin|].
  rewrite fmap_cons in Hnd. apply NoDup_cons in Hnd as [Hy Hnd].
  apply elem_of_cons in Hin as [->|Hin].
  - by rewrite filter_cons_True.
  - rewrite filter_cons_False; [by apply IH|].
    intros Heq. apply Hy. rewrite Heq. by apply list_elem_of_fmap_2.
Qed.

Lemma head_filter_elem (l : list A) (k : K) (x : A) :
  head (filter (λ y, key y = k) l) = Some x → x ∈ l ∧ key x = k.
Proof.
  intros H%head_Some_elem_of. apply list_elem_of_filter in H. tauto.
Qed.

(** Rows appended to a table do not change the first match. *)
Lemma head_filter_app (l l' : list A) (k : K) (x : A) :
  head (filter (λ y, key y = k) l) = Some x →
  head (filter (λ y, key y = k) (l ++ l')) = Some x.
Proof. intros H. by rewrite filter_app, head_app, H. Qed.
End first_match.

Lemma student_of_code_elem code d s :
  student_of_code code d = Some s → s ∈ students d ∧ st_code s = code.
Proof. apply head_filter_elem. Qed.

Lemma student_of_id_elem id d s :
  student_of_id id d = Some s → s ∈ students d ∧ st_id s = id.
Proof. apply head_filter_elem. Qed.

Lemma student_of_code_own d s :
  db_inv d → s ∈ students d → student_of_code (st_code s) d = Some s.
Proof. intros [Hc _ _ _ _ _] Hs. by apply head_filter_key. Qed.

Lemma student_of_id_own d s :
  db_inv d → s ∈ students d → student_of_id (st_id s) d = Some s.
Proof. intros [_ _ Hi _ _ _] Hs. by apply head_filter_key. Qed.

(** ** The invariants hold in every reachable database *)

Lemma db_inv_empty : db_inv empty_db.
Proof.
  split; simpl; try (intros ??; by rewrite ?lookup_empty);
    try (intros ? H; by inversion H); try constructor.
Qed.

(** A write to [access_requests] keeps the invariants when every row it
    leaves was there before or is a good row of a student. *)
Lemma db_inv_requests f d :
  db_inv d →
  (∀ sid r, f (access_requests d) !! sid = Some r →
     access_requests d !! sid = Some r ∨
     ((∃ s, s ∈ students d ∧ st_id s = sid) ∧ good_row r)) →
  db_inv (set_access_requests f d).
Proof.
  intros [Hc Hi Hd Ho Hs Ha] Hf. split; simpl; try done.
  - intros sid [r Hr]. destruct (Hf _ _ Hr) as [Hold|[Hown _]]; eauto.
  - intros sid r Hr. destruct (Hf _ _ Hr) as [Hold|[_ [Hst _]]]; eauto.
  - intros sid r Hr. destruct (Hf _ _ Hr) as [Hold|[_ [_ Hap]]]; eauto.
Qed.

Lemma db_inv_insert_student now name code school d :
  db_inv d → db_inv (exec_query now (InsertStudent name code school) d).2.
Proof.
  intros [Hc Hi Hd Ho Hs Ha]. simpl. case_bool_decide as Hin; simpl.
  - split; simpl; try done. intros s Hs'. specialize (Hi s Hs'). lia.
  - split; simpl; try done.
    + rewrite fmap_app. apply NoDup_app. split_and!; [done| |apply NoDup_singleton].
      intros c Hc1 Hc2%list_elem_of_singleton. simpl in Hc2. by subst c.
    + intros s [Hs'| ->%list_elem_of_singleton]%elem_of_app; [|simpl; lia].
      specialize (Hi s Hs'). lia.
    + rewrite fmap_app. apply NoDup_app. split_and!; [done| |apply NoDup_singleton].
      intros i (s & -> & Hs')%list_elem_of_fmap Hi2%list_elem_of_singleton. simpl in Hi2.
      specialize (Hi s Hs'). lia.
    + intros sid Hsid. destruct (Ho sid Hsid) as (s & Hs' & Hid).
      exists s. split; [|done]. apply elem_of_app. by left.
Qed.

(** What holds before the import loop and is kept by each of its inserts
    holds after the loop, which always commits. *)
Lemma upload_loop_run (P : db → Prop) now :
  (∀ name code school d, P d → P (exec_query now (InsertStudent name code school) d).2) →
  ∀ data count d, P d →
    ∃ count' d', run now (upload_loop data count) d = (Some count', d') ∧ P d'.
Proof.
  intros Hstep data. induction data as [|[name code] data IH]; intros count d HP; simpl.
  - eauto.
  - case_bool_decide; [|by apply IH].
    cbn [run]. specialize (Hstep name code 1 d HP).
    destruct (exec_query now (InsertStudent name code 1) d) as [[[]|] d1] eqn:E.
    + by apply IH.
    + simpl in E. by case_bool_decide.
Qed.

Lemma upload_keeps (P : db → Prop) now data d :
  (∀ name code school d, P d → P (exec_query now (InsertStudent name code school) d).2) →
  P d → P (upload now data d).2.
Proof.
  intros Hstep HP. unfold upload.
  destruct (upload_loop_run P now Hstep data 0%nat d HP) as (c & d' & -> & HP'). done.
Qed.

Lemma login_inv now code device_id d : db_inv d → db_inv (login now code device_id d).2.
Proof.
  intros Hinv. rewrite login_spec.
  destruct (student_of_code code d) as [s|] eqn:Hs; [|done].
  destruct (access_requests d !! st_id s) as [r|] eqn:Hr; [done|]. simpl.
  apply db_inv_requests; [done|]. intros sid r.
  destruct (decide (sid = st_id s)) as [->|Hne].
  - rewrite lookup_insert_eq. intros [= <-]. right.
    apply student_of_code_elem in Hs as [Hs _]. split; [eauto|].
    split; simpl; [set_solver|done].
  - rewrite lookup_insert_ne by done. eauto.
Qed.

Lemma alter_inv (g : request_row → request_row) student_id d :
  (∀ r, good_row (g r)) → db_inv d → db_inv (set_access_requests (alter g student_id) d).
Proof.
  intros Hg Hinv. apply db_inv_requests; [done|]. intros sid r.
  destruct (decide (sid = student_id)) as [->|Hne].
  - rewrite lookup_alter_eq. destruct (access_requests d !! student_id) as [r0|] eqn:Hr0; [|done].
    simpl. intros [= <-]. right. split; [|done].
    apply (inv_owner d Hinv). by rewrite Hr0.
  - rewrite lookup_alter_ne by done. eauto.
Qed.

Lemma serve_inv now r d : db_inv d → db_inv (serve now r d).
Proof.
  intros Hinv. destruct r; simpl.
  - by apply login_inv.
  - by rewrite my_grades_spec.
  - apply alter_inv; [|done]. intros r. split; simpl; [set_solver|done].
  - apply alter_inv; [|done]. intros r. split; simpl; [set_solver|done].
  - apply db_inv_requests; [done|]. intros sid r.
    destruct (decide (sid = student_id)) as [->|Hne].
    + by rewrite lookup_delete_eq.
    + rewrite lookup_delete_ne by done. eauto.
  - apply upload_keeps; [|done]. intros. by apply db_inv_insert_student.
  - by destruct Hinv.
  - by destruct Hinv.
  - by destruct Hinv.
Qed.

Lemma serve_all_inv h d : db_inv d → db_inv (serve_all h d).
Proof.
  revert d. induction h as [|[now r] h IH]; intros d Hinv; [done|].
  simpl. apply IH. by apply serve_inv.
Qed.

Lemma reachable_inv d : reachable d → db_inv d.
Proof. intros [h ->]. apply serve_all_inv, db_inv_empty. Qed.

Lemma reachable_serve now r d : reachable d → reachable (serve now r d).
Proof.
  intros [h ->]. exists (h ++ [(now, r)]). unfold serve_all. by rewrite foldl_app.
Qed.

(** ** What a request leaves alone *)

Lemma alter_absent (g : request_row → request_row) (m : gmap Z request_row) sid :
  m !! sid = None → alter g sid m = m.
Proof.
  intros Hnone. apply map_eq. intros i. destruct (decide (i = sid)) as [->|Hne].
  - by rewrite lookup_alter_eq, Hnone.
  - by rewrite lookup_alter_ne.
Qed.

(** No request changes which student a code selects. *)
Lemma serve_student_of_code now r d c s :
  student_of_code c d = Some s → student_of_code c (serve now r d) = Some s.
Proof.
  intros Hs. destruct r; simpl; try done.
  - rewrite login_spec. destruct (student_of_code code d) as [s'|]; [|done].
    destruct (access_requests d !! st_id s'); exact Hs.
  - by rewrite my_grades_spec.
  - apply (upload_keeps (λ d', student_of_code c d' = Some s)); [|done].
    intros name c' school d' Hd'. simpl. case_bool_decide; simpl; [done|].
    by apply head_filter_app.
Qed.

Lemma serve_all_student_of_code h d code s :
  student_of_code code d = Some s → student_of_code code (serve_all h d) = Some s.
Proof.
  revert d. induction h as [|[now r] h IH]; intros d Hs; [done|].
  simpl. by apply IH, serve_student_of_code.
Qed.

(** The import writes to [students] only. *)
Lemma upload_access_requests now data d :
  access_requests (upload now data d).2 = access_requests d.
Proof.
  apply (upload_keeps (λ d', access_requests d' = access_requests d)); [|done].
  intros name c school d' Hd'. simpl. by case_bool_decide.
Qed.

(** A request other than the reset of a student keeps that student's request
    row in place, bound to the same device. *)
Lemma serve_keeps_device now r d sid row :
  access_requests d !! sid = Some row →
  r ≠ PostReset sid →
  ∃ row', access_requests (serve now r d) !! sid = Some row' ∧
          rq_device_id row' = rq_device_id row.
Proof.
  intros Hrow Hr. destruct r; simpl; eauto.
  - rewrite login_spec. destruct (student_of_code code d) as [s|]; [|eauto].
    destruct (access_requests d !! st_id s) as [r0|] eqn:Hr0; [eauto|]. simpl.
    exists row. split; [|done]. rewrite lookup_insert_ne; [done|]. congruence.
  - rewrite my_grades_spec. eauto.
  - destruct (decide (sid = student_id)) as [->|Hne].
    + rewrite lookup_alter_eq, Hrow. simpl. eauto.
    + rewrite lookup_alter_ne by done. eauto.
  - destruct (decide (sid = student_id)) as [->|Hne].
    + rewrite lookup_alter_eq, Hrow. simpl. eauto.
    + rewrite lookup_alter_ne by done. eauto.
  - exists row. split; [|done]. rewrite lookup_delete_ne; [done|]. congruence.
  - rewrite upload_access_requests. eauto.
Qed.

Lemma serve_all_keeps_device h d sid row :
  access_requests d !! sid = Some row →
  Forall (λ e, e.2 ≠ PostReset sid) h →
  ∃ row', access_requests (serve_all h d) !! sid = Some row' ∧
          rq_device_id row' = rq_device_id row.
Proof.
  revert d row. induction h as [|[now r] h IH]; intros d row Hrow Hh; [eauto|].
  apply Forall_cons in Hh as [Hr Hh]. simpl in *.
  destruct (serve_keeps_device now r d sid row Hrow Hr) as (row1 & Hrow1 & Hdev1).
  destruct (IH _ _ Hrow1 Hh) as (row2 & Hrow2 & Hdev2).
  exists row2. split; [done|congruence].
Qed.

(** A login against a bound code from another device is refused and writes
    nothing. *)
Lemma login_mismatch now code device_id d s row :
  student_of_code code d = Some s →
  access_requests d !! st_id s = Some row →
  device_id ≠ rq_device_id row →
  login now code device_id d = (LoginRefused msg_device_mismatch, d).
Proof.
  intros Hs Hrow Hne. rewrite login_spec, Hs, Hrow.
  by rewrite bool_decide_eq_false_2.
Qed.

(** The first login of a student binds the device that sent it. *)
Lemma login_first now code device_id d s :
  student_of_code code d = Some s →
  access_requests d !! st_id s = None →
  login now code device_id d =
    (LoginStudent (st_id s) (st_name s) code PENDING None,
     set_access_requests <[st_id s := Request device_id PENDING None now]> d).
Proof. intros Hs Hrow. by rewrite login_spec, Hs, Hrow. Qed.

(** * The claims *)

(** ** Login *)

(** C9. A login whose code is the code of no student row is answered with
    [success: false] and the text "Code matricule incorrect", which is not
    the text of the device-mismatch refusal, and the database is left as it
    was: no request row is created or changed. *)
Theorem login_unknown_code now code device_id d :
  (∀ s, s ∈ students d → st_code s ≠ code) →
  login now code device_id d = (LoginRefused msg_invalid_code, d) ∧
  msg_invalid_code ≠ msg_device_mismatch.
Proof.
  intros Hnone. split; [|done].
  rewrite login_spec. destruct (student_of_code code d) as [s|] eqn:Hs; [|done].
  apply student_of_code_elem in Hs as [Hin Hcode]. by destruct (Hnone s Hin).
Qed.

Lemma login_unknown_code_witness :
  login 50 "ZZ-0000" "phone-A" db_roster = (LoginRefused msg_invalid_code, db_roster).
Proof.
  apply (login_unknown_code 50 "ZZ-0000" "phone-A" db_roster).
  intros s Hs. vm_compute in Hs.
  repeat (apply elem_of_cons in Hs as [->|Hs]; [done|]). by inversion Hs.
Defined.

(** C1. When a code selects a student who has no request row, a login from
    device [D] answers success with status PENDING and adds exactly one row,
    the student's, with status PENDING and device [D].  In every database a
    later history leads to, a login with that code from a device other than
    the one stored is refused with the device-mismatch text and writes
    nothing; and as long as the history holds no reset of the student, the
    stored device is still [D]. *)
Theorem login_binds_first_device now code D d s :
  student_of_code code d = Some s →
  access_requests d !! st_id s = None →
  let d1 := (login now code D d).2 in
  (login now code D d).1 = LoginStudent (st_id s) (st_name s) code PENDING None ∧
  d1 = set_access_requests <[st_id s := Request D PENDING None now]> d ∧
  size (access_requests d1) = S (size (access_requests d)) ∧
  ∀ (h : list (Z * request)) now' D',
    let d2 := serve_all h d1 in
    (∀ row, access_requests d2 !! st_id s = Some row → D' ≠ rq_device_id row →
       login now' code D' d2 = (LoginRefused msg_device_mismatch, d2)) ∧
    (Forall (λ e, e.2 ≠ PostReset (st_id s)) h →
       ∃ row, access_requests d2 !! st_id s = Some row ∧ rq_device_id row = D).
Proof.
  intros Hs Hnone d1. subst d1. rewrite (login_first now code D d s Hs Hnone). simpl.
  split_and!; [done|done|by apply map_size_insert_None|].
  intros h now' D'. simpl. split.
  - intros row Hrow Hne. apply (login_mismatch now' code D' _ s row); [|done|done].
    by apply serve_all_student_of_code.
  - intros Hh.
    apply (serve_all_keeps_device h _ (st_id s) (Request D PENDING None now)); [|done].
    simpl. by rewrite lookup_insert_eq.
Qed.

Lemma login_binds_first_device_witness :
  student_of_code "AB-1234" db_roster = Some (Student 1 "Amine Haddad" "AB-1234" 1) ∧
  access_requests db_roster !! 1 = None ∧
  (login 10 "AB-1234" "phone-A" db_roster).1 =
    LoginStudent 1 "Amine Haddad" "AB-1234" PENDING None ∧
  login 20 "AB-1234" "phone-B" db_bound = (LoginRefused msg_device_mismatch, db_bound).
Proof.
  assert (Hs : student_of_code "AB-1234" db_roster = Some (Student 1 "Amine Haddad" "AB-1234" 1))
    by reflexivity.
  assert (Hnone : access_requests db_roster !! st_id (Student 1 "Amine Haddad" "AB-1234" 1) = None)
    by reflexivity.
  destruct (login_binds_first_device 10 "AB-1234" "phone-A" db_roster _ Hs Hnone)
    as (Hresp & _ & _ & Hlater).
  split_and!; [done|done|done|].
  destruct (Hlater [] 20 "phone-B") as [Hmis _].
  apply (Hmis (Request "phone-A" PENDING None 10)); [reflexivity|done].
Defined.

(** C3. When the stored request of the student a code selects is bound to
    device [D], a login with that code from [D] writes nothing (the row keeps
    its device, status, message and date) and answers success with the stored
    status as it is; the answer carries the stored message exactly when that
    status is REJECTED. *)
Theorem login_same_device_reads now code D d s row :
  student_of_code code d = Some s →
  access_requests d !! st_id s = Some row →
  rq_device_id row = D →
  login now code D d =
    (LoginStudent (st_id s) (st_name s) code (rq_status row)
       (if bool_decide (rq_status row = REJECTED) then Some (rq_message row) else None), d) ∧
  access_requests (login now code D d).2 !! st_id s = Some row.
Proof.
  intros Hs Hrow Hdev. rewrite login_spec, Hs, Hrow.
  rewrite bool_decide_eq_true_2 by done. split; [|done].
  case_bool_decide as Hst; [|done]. by rewrite Hst.
Qed.

Lemma login_same_device_reads_witness :
  login 30 "AB-1234" "phone-A" db_bound =
    (LoginStudent 1 "Amine Haddad" "AB-1234" PENDING None, db_bound).
Proof.
  apply (login_same_device_reads 30 "AB-1234" "phone-A" db_bound
           (Student 1 "Amine Haddad" "AB-1234" 1) (Request "phone-A" PENDING None 10));
    reflexivity.
Defined.

(** ** Admin transitions *)

Lemma request_is_reset_dec (r : request) (sid : Z) :
  {r = PostReset sid} + {r ≠ PostReset sid}.
Proof.
  destruct r; try (right; discriminate).
  destruct (decide (student_id = sid)) as [->|Hne]; [by left|right; congruence].
Qed.

(** A student's stored device changes only across a reset of that student. *)
Lemma rebinding_needs_reset h d sid row row' :
  access_requests d !! sid = Some row →
  access_requests (serve_all h d) !! sid = Some row' →
  rq_device_id row' ≠ rq_device_id row →
  Exists (λ e, e.2 = PostReset sid) h.
Proof.
  revert d row. induction h as [|[now r] h IH]; intros d row Hrow Hrow' Hne.
  - simpl in Hrow'. congruence.
  - destruct (request_is_reset_dec r sid) as [->|Hr]; [by apply Exists_cons_hd|].
    apply Exists_cons_tl.
    destruct (serve_keeps_device now r d sid row Hrow Hr) as (row1 & Hrow1 & Hdev1).
    apply (IH (serve now r d) row1); [done|exact Hrow'|congruence].
Qed.

(** C6. [reset] answers success and deletes the student's request row.  A
    login that follows with the student's code, from any device [D], answers
    success with status PENDING and stores a new row with status PENDING and
    device [D].  Whenever a history takes a student's row from one device to
    another, the history holds a reset of that student. *)
Theorem reset_releases_binding now d sid :
  let d1 := (reset now sid d).2 in
  (reset now sid d).1 = AdminDone true ∧
  access_requests d1 = delete sid (access_requests d) ∧
  access_requests d1 !! sid = None ∧
  (∀ code s now' D,
     student_of_code code d = Some s → st_id s = sid →
     login now' code D d1 =
       (LoginStudent sid (st_name s) code PENDING None,
        set_access_requests <[sid := Request D PENDING None now']> d1)) ∧
  (∀ h row row',
     access_requests d !! sid = Some row →
     access_requests (serve_all h d) !! sid = Some row' →
     rq_device_id row' ≠ rq_device_id row →
     Exists (λ e, e.2 = PostReset sid) h).
Proof.
  simpl. split_and!; [done|done|apply lookup_delete_eq| |].
  - intros code s now' D Hs <-. apply login_first; [done|]. apply lookup_delete_eq.
  - intros h row row'. apply rebinding_needs_reset.
Qed.

Lemma reset_releases_binding_witness :
  access_requests db_bound !! 1 = Some (Request "phone-A" PENDING None 10) ∧
  login 40 "AB-1234" "phone-B" (reset 35 1 db_bound).2 =
    (LoginStudent 1 "Amine Haddad" "AB-1234" PENDING None,
     set_access_requests <[1 := Request "phone-B" PENDING None 40]> (reset 35 1 db_bound).2).
Proof.
  split; [reflexivity|].
  destruct (reset_releases_binding 35 db_bound 1) as (_ & _ & _ & Hlogin & _).
  apply (Hlogin "AB-1234" (Student 1 "Amine Haddad" "AB-1234" 1)); reflexivity.
Defined.

(** C8. When the student has no request row, [approve] and [reject] change
    no row, leave the whole database as it was (no request row appears), and
    still answer [success: true]. *)
Theorem admin_on_missing_request now d sid reason :
  access_requests d !! sid = None →
  approve now sid d = (AdminDone true, d) ∧
  reject now sid reason d = (AdminDone true, d).
Proof.
  intros Hnone. rewrite approve_spec, reject_spec.
  by rewrite !set_access_requests_same by (by apply alter_absent).
Qed.

Lemma admin_on_missing_request_witness :
  access_requests db_bound !! 2 = None ∧
  approve 60 2 db_bound = (AdminDone true, db_bound) ∧
  reject 60 2 (Some "late payment") db_bound = (AdminDone true, db_bound).
Proof.
  split; [reflexivity|].
  apply (admin_on_missing_request 60 db_bound 2 (Some "late payment")). reflexivity.
Defined.

(** C7. In a reachable database where the student has a request row,
    [approve] sets its status to APPROVED and its message to [NULL] and keeps
    the device and the date; approving a second time leaves the database as
    the first call left it; and when the status was already APPROVED the call
    changes nothing. *)
Theorem approve_idempotent now now' d sid row :
  reachable d →
  access_requests d !! sid = Some row →
  let d1 := (approve now sid d).2 in
  access_requests d1 !! sid =
    Some (Request (rq_device_id row) APPROVED None (rq_request_date row)) ∧
  (approve now' sid d1).2 = d1 ∧
  (rq_status row = APPROVED → d1 = d).
Proof.
  intros Hreach Hrow. simpl. split_and!.
  - by rewrite lookup_alter_eq, Hrow.
  - apply set_access_requests_same. simpl.
    apply map_eq. intros i. destruct (decide (i = sid)) as [->|Hne].
    + rewrite !lookup_alter_eq. by destruct (access_requests d !! sid).
    + by rewrite !lookup_alter_ne.
  - intros Hst. apply set_access_requests_same.
    pose proof (inv_approved d (reachable_inv d Hreach) sid row Hrow Hst) as Hmsg.
    apply map_eq. intros i. destruct (decide (i = sid)) as [->|Hne].
    + rewrite lookup_alter_eq, Hrow. simpl. f_equal.
      destruct row as [dev st msg date]. simpl in *. by subst.
    + by rewrite lookup_alter_ne.
Qed.

Lemma db_bound_reachable : reachable db_bound.
Proof.
  exists [(0, PostUpload [("Amine Haddad", "AB-1234"); ("Lina Saidi", "CD-5678")]);
          (10, PostLogin "AB-1234" "phone-A")].
  reflexivity.
Qed.

Lemma approve_idempotent_witness :
  access_requests db_bound !! 1 = Some (Request "phone-A" PENDING None 10) ∧
  access_requests (approve 70 1 db_bound).2 !! 1 = Some (Request "phone-A" APPROVED None 10) ∧
  (approve 71 1 (approve 70 1 db_bound).2).2 = (approve 70 1 db_bound).2.
Proof.
  assert (Hrow : access_requests db_bound !! 1 = Some (Request "phone-A" PENDING None 10))
    by reflexivity.
  destruct (approve_idempotent 70 71 db_bound 1 _ db_bound_reachable Hrow) as (H1 & H2 & _).
  split_and!; [exact Hrow|exact H1|exact H2].
Defined.

(** C5. In a reachable database where the student has a request row,
    [reject] with a reason answers success and sets the row's status to
    REJECTED and its message to the reason, whatever the status was (the
    device and the date stay).  After it, a login with the student's code
    from the bound device answers success with status REJECTED and that
    message, and the grades route answers [locked: true], [rejected: true]
    and [reject_reason] equal to the reason. *)
Theorem reject_overrides now d sid row reason :
  reachable d →
  access_requests d !! sid = Some row →
  let d1 := (reject now sid (Some reason) d).2 in
  (reject now sid (Some reason) d).1 = AdminDone true ∧
  access_requests d1 !! sid =
    Some (Request (rq_device_id row) REJECTED (Some reason) (rq_request_date row)) ∧
  ∃ s, student_of_id sid d = Some s ∧
    ∀ now',
      login now' (st_code s) (rq_device_id row) d1 =
        (LoginStudent sid (st_name s) (st_code s) REJECTED (Some (Some reason)), d1) ∧
      ∃ v, my_grades now' sid d1 = (v, d1) ∧
           view_locked v = Some true ∧
           view_rejected v = Some true ∧
           view_reject_reason v = Some reason.
Proof.
  intros Hreach Hrow d1. pose proof (reachable_inv d Hreach) as Hinv.
  assert (Hrow1 : access_requests d1 !! sid =
            Some (Request (rq_device_id row) REJECTED (Some reason) (rq_request_date row))).
  { subst d1. simpl. by rewrite lookup_alter_eq, Hrow. }
  split_and!; [done|done|].
  destruct (inv_owner d Hinv sid) as (s & Hin & <-); [by rewrite Hrow|].
  exists s. split; [by apply student_of_id_own|]. intros now'. split.
  - rewrite login_spec.
    change (student_of_code (st_code s) d1) with (student_of_code (st_code s) d).
    rewrite (student_of_code_own d s Hinv Hin), Hrow1. simpl.
    by rewrite bool_decide_eq_true_2.
  - rewrite my_grades_spec.
    change (student_of_id (st_id s) d1) with (student_of_id (st_id s) d).
    rewrite (student_of_id_own d s Hinv Hin), Hrow1. simpl.
    eexists. split; [reflexivity|]. simpl. split_and!; [done|done|].
    by case_bool_decide; subst.
Qed.

Lemma reject_overrides_witness :
  access_requests (approve 70 1 db_bound).2 !! 1 = Some (Request "phone-A" APPROVED None 10) ∧
  access_requests (reject 80 1 (Some "late payment") (approve 70 1 db_bound).2).2 !! 1 =
    Some (Request "phone-A" REJECTED (Some "late payment") 10).
Proof.
  assert (Hrow : access_requests (approve 70 1 db_bound).2 !! 1 =
                   Some (Request "phone-A" APPROVED None 10)) by reflexivity.
  split; [exact Hrow|].
  destruct (reject_overrides 80 (approve 70 1 db_bound).2 1 _ "late payment"
              (reachable_serve 70 (PostApprove 1) db_bound db_bound_reachable) Hrow)
    as (_ & H & _).
  exact H.
Defined.

(** ** The grades route *)

(** C10. The grades route writes nothing: whatever the id, and whether or
    not it selects a student, the database after the call (students, access
    requests, grades, absences, notifications) is the database before it. *)
Theorem my_grades_writes_nothing now id d :
  (my_grades now id d).2 = d ∧
  students (my_grades now id d).2 = students d ∧
  access_requests (my_grades now id d).2 = access_requests d ∧
  grades (my_grades now id d).2 = grades d ∧
  absences (my_grades now id d).2 = absences d ∧
  notifications (my_grades now id d).2 = notifications d.
Proof. by rewrite my_grades_spec. Qed.

(** C4.  The gate the claim describes is the gate of the route, up to the
    claim's last clause, where the code slips.  Student 1 of the sample
    roster has no request row: the view is locked, but
    [isRejected = (access && access.status === 'REJECTED')] is [undefined],
    so the body has no [rejected] key where the claim has [rejected = false].
    With a pending request row, the other locked path, the same route sends
    [rejected: false]. *)
Lemma my_grades_missing_row_drops_rejected :
  access_requests db_roster !! 1 = None ∧
  my_grades 0 1 db_roster = (ViewLocked None "" [] [], db_roster) ∧
  view_rejected (my_grades 0 1 db_roster).1 ≠ Some false ∧
  access_requests db_bound !! 1 = Some (Request "phone-A" PENDING None 10) ∧
  my_grades 0 1 db_bound = (ViewLocked (Some false) "" [] [], db_bound).
Proof. by split_and!. Qed.

(** ** Two first logins in flight *)

(** One handler scheduled alone answers what [try_catch] answers. *)
Lemma thread_run_alone {R} (on_error : R) now (p : prog R) d :
  ∃ fuel, thread_run on_error now fuel p d =
            (Ret (try_catch p on_error now d).1, (try_catch p on_error now d).2).
Proof.
  revert d. induction p as [r|A q k IH]; intros d.
  - by exists 0%nat.
  - unfold try_catch. cbn [run].
    destruct (exec_query now q d) as [[a|] d1] eqn:E.
    + destruct (IH a d1) as [fuel Hfuel]. exists (S fuel).
      cbn [thread_run thread_step]. rewrite E. exact Hfuel.
    + exists 1%nat. cbn [thread_run thread_step]. by rewrite E.
Qed.

Section race.
Variables (d : db) (s : student_row) (code device1 device2 : string).
Hypothesis Hstudent : student_of_code code d = Some s.
Hypothesis Hfresh : access_requests d !! st_id s = None.
Hypothesis Hdevices : device1 ≠ device2.

Lemma select_student_found :
  head (select_student_by_code code d) = Some (st_id s, st_name s).
Proof.
  unfold select_student_by_code. rewrite head_fmap.
  fold (student_of_code code d). by rewrite Hstudent.
Qed.

(** While no row is written a handler reads on, or writes its row. *)
Lemma login_at_step_open device n p now :
  login_at (st_id s) (st_name s) code device n p →
  (∃ p', thread_step (LoginServerError msg_login_error) now p d = (p', d) ∧ (2 ≤ n)%nat ∧
         login_at (st_id s) (st_name s) code device (pred n) p') ∨
  (n = 1%nat ∧
   thread_step (LoginServerError msg_login_error) now p d =
     (Ret (LoginStudent (st_id s) (st_name s) code PENDING None),
      set_access_requests <[st_id s := Request device PENDING None now]> d)).
Proof.
  intros [| |].
  - left. eexists. split_and!; [|lia|apply login_at_found].
    cbn [thread_step login_body exec_query]. by rewrite select_student_found.
  - left. eexists. split_and!; [|lia|apply login_at_insert].
    cbn [thread_step login_found exec_query]. unfold select_request.
    by rewrite Hfresh.
  - right. split; [done|].
    cbn [thread_step login_insert exec_query]. by rewrite Hfresh.
Qed.

(** With the row of another device in place, a handler at its first
    statement still finds the student; at its lookup it is refused; at its
    insert it fails on the primary key.  Nothing is written. *)
Lemma login_at_step_lost device other t n p now :
  other ≠ device →
  login_at (st_id s) (st_name s) code device n p →
  let d' := set_access_requests <[st_id s := Request other PENDING None t]> d in
  thread_step (LoginServerError msg_login_error) now p d' =
    (match n with
     | 3%nat => login_found (st_id s) (st_name s) code device
     | 2%nat => Ret (LoginRefused msg_device_mismatch)
     | _ => Ret (LoginServerError msg_login_error)
     end, d').
Proof.
  intros Hne [| |] d'.
  - cbn [thread_step login_body exec_query].
    change (select_student_by_code code d') with (select_student_by_code code d).
    by rewrite select_student_found.
  - cbn [thread_step login_found exec_query]. unfold select_request, d'. simpl.
    rewrite lookup_insert_eq. simpl. by rewrite bool_decide_eq_false_2.
  - cbn [thread_step login_insert exec_query]. unfold d'. simpl.
    by rewrite lookup_insert_eq.
Qed.

Lemma turns_cons (pick b : bool) now sched :
  turns pick ((b, now) :: sched) =
    if bool_decide (b = pick) then S (turns pick sched) else turns pick sched.
Proof.
  unfold turns. rewrite filter_cons. simpl.
  destruct (decide (b = pick)); by case_bool_decide.
Qed.

Lemma turns_snoc (pick b : bool) now sched :
  turns pick (sched ++ [(b, now)]) =
    if bool_decide (b = pick) then S (turns pick sched) else turns pick sched.
Proof.
  unfold turns. rewrite filter_app, length_app, filter_cons, filter_nil. simpl.
  destruct (decide (b = pick)); case_bool_decide; simpl; try done; lia.
Qed.

Lemma turns_snoc_same (b : bool) now sched :
  turns b (sched ++ [(b, now)]) = S (turns b sched).
Proof. rewrite turns_snoc. by rewrite bool_decide_eq_true_2. Qed.

Lemma turns_snoc_other (b b' : bool) now sched :
  b' ≠ b → turns b (sched ++ [(b', now)]) = turns b sched.
Proof. intros Hne. rewrite turns_snoc. by rewrite bool_decide_eq_false_2. Qed.

Lemma turns_prefix (pick : bool) (q sched : list (bool * Z)) :
  q `prefix_of` sched → (turns pick q ≤ turns pick sched)%nat.
Proof. intros [k ->]. unfold turns. rewrite filter_app, length_app. lia. Qed.

Lemma prefix_snoc_inv {A} (q l : list A) (x : A) :
  q `prefix_of` l ++ [x] → q = l ++ [x] ∨ q `prefix_of` l.
Proof.
  intros [k Hk]. destruct k as [|y k _] using rev_ind.
  - left. by rewrite app_nil_r in Hk.
  - right. rewrite app_assoc in Hk. apply app_inj_tail in Hk as [-> _]. by exists k.
Qed.

Lemma race_run_snoc sched pick now c :
  race_run (sched ++ [(pick, now)]) c = race_step pick now (race_run sched c).
Proof. unfold race_run. by rewrite foldl_app. Qed.

Lemma bound_differs device t :
  set_access_requests <[st_id s := Request device PENDING None t]> d ≠ d.
Proof.
  intros Heq. apply (f_equal (λ x, access_requests x !! st_id s)) in Heq.
  simpl in Heq. by rewrite lookup_insert_eq, Hfresh in Heq.
Qed.

(** A lookup that ran while no row was written stays so as the schedule
    goes on; it has run if the handler has had two turns and no row is
    written; it has not if the handler has had fewer than two turns. *)
Lemma looked_first_snoc b sched e :
  looked_first code device1 device2 d b sched →
  looked_first code device1 device2 d b (sched ++ [e]).
Proof. intros (q & Hq & Ht & Hdb). exists q. split; [by apply prefix_app_r|done]. Qed.

Lemma looked_first_now b sched :
  race_db (race_run sched (race_start code device1 device2 d)) = d →
  (2 ≤ turns b sched)%nat →
  looked_first code device1 device2 d b sched.
Proof. intros Hdb Ht. by exists sched. Qed.

Lemma not_looked_first_few b sched :
  (turns b sched < 2)%nat → ¬ looked_first code device1 device2 d b sched.
Proof. intros Ht (q & Hq & Ht' & _). apply (turns_prefix b) in Hq. lia. Qed.

Lemma not_looked_first_snoc b sched e :
  ¬ looked_first code device1 device2 d b sched →
  race_db (race_run (sched ++ [e]) (race_start code device1 device2 d)) ≠ d →
  ¬ looked_first code device1 device2 d b (sched ++ [e]).
Proof.
  intros Hnot Hdb (q & [->|Hq]%prefix_snoc_inv & Ht & Hdb'); [done|].
  apply Hnot. by exists q.
Qed.

(** The loser's state carries over when the schedule goes on without it. *)
Lemma loser_at_wait device (L L' : Prop) n p :
  (L → L') → (¬ L → ¬ L') →
  loser_at (st_id s) (st_name s) code device L n p →
  loser_at (st_id s) (st_name s) code device L' n p.
Proof.
  intros Hyes Hno [m q Hm Hq|HL|m Hm HL|m Hm HL].
  - by apply loser_early.
  - apply loser_late. by apply Hyes.
  - apply loser_refused; [done|by apply Hno].
  - apply loser_failed; [done|by apply Hyes].
Qed.

(** The loser's own step, with the other device's row in place. *)
Lemma loser_at_step device other t (L L' : Prop) n p now :
  other ≠ device →
  (L → L') → (¬ L → ¬ L') → ((n < 2)%nat → ¬ L') →
  loser_at (st_id s) (st_name s) code device L n p →
  let d' := set_access_requests <[st_id s := Request other PENDING None t]> d in
  ∃ p', thread_step (LoginServerError msg_login_error) now p d' = (p', d') ∧
        loser_at (st_id s) (st_name s) code device L' (S n) p'.
Proof.
  intros Hne Hyes Hno Hfew Hl. revert Hfew.
  destruct Hl as [m q Hm Hq|HL|m Hm HL|m Hm HL]; intros Hfew; cbv zeta.
  - pose proof (login_at_step_lost device other t _ q now Hne Hq) as E.
    cbv zeta in E. rewrite E.
    eexists. split; [reflexivity|].
    destruct m as [|[|m]]; [| |lia]; simpl.
    + apply loser_early; [lia|]. apply login_at_found.
    + apply loser_refused; [lia|]. apply Hfew. lia.
  - pose proof (login_at_step_lost device other t 1 _ now Hne (login_at_insert _ _ _ _)) as E.
    cbv zeta in E. rewrite E.
    eexists. split; [reflexivity|]. apply loser_failed; [lia|by apply Hyes].
  - eexists. split; [reflexivity|]. apply loser_refused; [lia|by apply Hno].
  - eexists. split; [reflexivity|]. apply loser_failed; [lia|by apply Hyes].
Qed.

(** The invariant holds after every schedule. *)
Lemma race_inv_run sched :
  race_inv d s code device1 device2 sched
    (race_run sched (race_start code device1 device2 d)).
Proof.
  induction sched as [|[pick now] sched IH] using rev_ind.
  - apply race_open; apply login_at_start.
  - rewrite race_run_snoc.
    remember (race_run sched (race_start code device1 device2 d)) as c eqn:Hc.
    assert (Hdb : ∀ c', race_step pick now c = c' →
              race_db (race_run (sched ++ [(pick, now)]) (race_start code device1 device2 d)) =
              race_db c').
    { intros c' <-. by rewrite race_run_snoc, <- Hc. }
    destruct IH as [p1 p2 H1 H2|t p2 Ht H2|t p1 Ht H1]; unfold race_step in *;
      cbn [race_db race_first race_second] in *; destruct pick.
    + destruct (login_at_step_open device1 _ p1 now H1) as [(p' & Hstep & Hn & H')|[Hn Hstep]];
        rewrite Hstep in *.
      * apply race_open; rewrite ?turns_snoc_same, ?turns_snoc_other by done; [|done].
        by replace (3 - S (turns true sched))%nat with (pred (3 - turns true sched)) by lia.
      * apply race_first_won; rewrite ?turns_snoc_same, ?turns_snoc_other by done; [lia|].
        destruct (decide (turns false sched < 2)%nat) as [Hfew|Hmany].
        -- by apply loser_early.
        -- assert (Htwo : turns false sched = 2%nat) by (inversion H2; lia).
           rewrite Htwo in *. inversion H2; try lia. apply loser_late.
           apply looked_first_snoc, looked_first_now; [by rewrite <- Hc|lia].
    + destruct (login_at_step_open device2 _ p2 now H2) as [(p' & Hstep & Hn & H')|[Hn Hstep]];
        rewrite Hstep in *.
      * apply race_open; rewrite ?turns_snoc_same, ?turns_snoc_other by done; [done|].
        by replace (3 - S (turns false sched))%nat with (pred (3 - turns false sched)) by lia.
      * apply race_second_won; rewrite ?turns_snoc_same, ?turns_snoc_other by done; [lia|].
        destruct (decide (turns true sched < 2)%nat) as [Hfew|Hmany].
        -- by apply loser_early.
        -- assert (Htwo : turns true sched = 2%nat) by (inversion H1; lia).
           rewrite Htwo in *. inversion H1; try lia. apply loser_late.
           apply looked_first_snoc, looked_first_now; [by rewrite <- Hc|lia].
    + apply race_first_won; rewrite ?turns_snoc_same, ?turns_snoc_other by done; [lia|].
      eapply loser_at_wait; [apply looked_first_snoc| |exact H2].
      intros Hnot. apply not_looked_first_snoc; [done|].
      rewrite (Hdb _ eq_refl). apply bound_differs.
    + pose proof (loser_at_step device2 device1 t
                    (looked_first code device1 device2 d false sched)
                    (looked_first code device1 device2 d false (sched ++ [(false, now)]))
                    (turns false sched) p2 now Hdevices) as Hstep.
      destruct Hstep as (p' & Hstep & H'); [apply looked_first_snoc| | |exact H2|].
      * intros Hnot. apply not_looked_first_snoc; [done|].
        rewrite (Hdb _ eq_refl). simpl.
        destruct (thread_step _ now p2 _) as [p'' d''] eqn:E. simpl.
        destruct (loser_at_step device2 device1 t _ _ _ p2 now Hdevices
                    (λ H, H) (λ H, H) (λ _, Hnot) H2) as (p3 & E3 & _).
        rewrite E3 in E. injection E as _ <-. apply bound_differs.
      * intros Hfew. apply not_looked_first_snoc; [by apply not_looked_first_few|].
        rewrite (Hdb _ eq_refl). simpl.
        destruct (thread_step _ now p2 _) as [p'' d''] eqn:E. simpl.
        destruct (loser_at_step device2 device1 t _ _ _ p2 now Hdevices
                    (λ H, H) (λ H, H) (λ _, not_looked_first_few false sched Hfew) H2)
          as (p3 & E3 & _).
        rewrite E3 in E. injection E as _ <-. apply bound_differs.
      * rewrite Hstep. apply race_first_won; rewrite ?turns_snoc_same, ?turns_snoc_other by done; [done|done].
    + pose proof (loser_at_step device1 device2 t
                    (looked_first code device1 device2 d true sched)
                    (looked_first code device1 device2 d true (sched ++ [(true, now)]))
                    (turns true sched) p1 now (not_eq_sym Hdevices)) as Hstep.
      destruct Hstep as (p' & Hstep & H'); [apply looked_first_snoc| | |exact H1|].
      * intros Hnot. apply not_looked_first_snoc; [done|].
        rewrite (Hdb _ eq_refl). simpl.
        destruct (thread_step _ now p1 _) as [p'' d''] eqn:E. simpl.
        destruct (loser_at_step device1 device2 t _ _ _ p1 now (not_eq_sym Hdevices)
                    (λ H, H) (λ H, H) (λ _, Hnot) H1) as (p3 & E3 & _).
        rewrite E3 in E. injection E as _ <-. apply bound_differs.
      * intros Hfew. apply not_looked_first_snoc; [by apply not_looked_first_few|].
        rewrite (Hdb _ eq_refl). simpl.
        destruct (thread_step _ now p1 _) as [p'' d''] eqn:E. simpl.
        destruct (loser_at_step device1 device2 t _ _ _ p1 now (not_eq_sym Hdevices)
                    (λ H, H) (λ H, H) (λ _, not_looked_first_few true sched Hfew) H1)
          as (p3 & E3 & _).
        rewrite E3 in E. injection E as _ <-. apply bound_differs.
      * rewrite Hstep. apply race_second_won; rewrite ?turns_snoc_same, ?turns_snoc_other by done; [done|done].
    + apply race_second_won; rewrite ?turns_snoc_same, ?turns_snoc_other by done; [lia|].
      eapply loser_at_wait; [apply looked_first_snoc| |exact H1].
      intros Hnot. apply not_looked_first_snoc; [done|].
      rewrite (Hdb _ eq_refl). apply bound_differs.
Qed.
End race.

(** C2, as the handlers run.  Two first logins for the code of a student
    without a request row, from two distinct devices, are interleaved
    statement by statement.  At every point of every schedule the table is
    as it was or holds one more row, the student's, bound to one of the two
    devices.  Once each handler has been given its three statements, exactly
    one of them has written its row and answered success with PENDING; the
    other has written nothing and never answers success: it answers the
    server error of its [catch] exactly when its lookup of the request ran
    while no row was written yet, and the device-mismatch refusal exactly
    when its lookup ran after the winner's insert. *)
Theorem race_one_binding code D1 D2 d s sched :
  student_of_code code d = Some s →
  access_requests d !! st_id s = None →
  D1 ≠ D2 →
  let c := race_run sched (race_start code D1 D2 d) in
  let bound D t := set_access_requests <[st_id s := Request D PENDING None t]> d in
  let granted := Some (LoginStudent (st_id s) (st_name s) code PENDING None) in
  let refused := Some (LoginRefused msg_device_mismatch) in
  let failed := Some (LoginServerError msg_login_error) in
  let early b := looked_first code D1 D2 d b sched in
  (race_db c = d ∨ ∃ t, race_db c = bound D1 t ∨ race_db c = bound D2 t) ∧
  ((3 ≤ turns true sched)%nat → (3 ≤ turns false sched)%nat →
   ∃ t,
     (race_db c = bound D1 t ∧ answer (race_first c) = granted ∧
      (answer (race_second c) = refused ∨ answer (race_second c) = failed) ∧
      (answer (race_second c) = failed ↔ early false) ∧
      (answer (race_second c) = refused ↔ ¬ early false)) ∨
     (race_db c = bound D2 t ∧ answer (race_second c) = granted ∧
      (answer (race_first c) = refused ∨ answer (race_first c) = failed) ∧
      (answer (race_first c) = failed ↔ early true) ∧
      (answer (race_first c) = refused ↔ ¬ early true))).
Proof.
  intros Hs Hfresh Hne c bound granted refused failed early.
  pose proof (race_inv_run d s code D1 D2 Hs Hfresh Hne sched) as Hinv.
  fold c in Hinv. split.
  - destruct Hinv; simpl; eauto.
  - intros H1 H2.
    destruct Hinv as [p1 p2 Hp1 Hp2|t p2 Ht Hp2|t p1 Ht Hp1].
    + inversion Hp1; lia.
    + exists t. left. split_and!; [done|done|..];
        destruct Hp2 as [n p Hn Hp|HL|n Hn HL|n Hn HL]; simpl; try lia.
      * by left.
      * by right.
      * split; [done|]. intros HL'. by destruct HL.
      * done.
      * done.
      * split; [done|]. intros HL'. by destruct HL'.
    + exists t. right. split_and!; [done|done|..];
        destruct Hp1 as [n p Hn Hp|HL|n Hn HL|n Hn HL]; simpl; try lia.
      * by left.
      * by right.
      * split; [done|]. intros HL'. by destruct HL.
      * done.
      * done.
      * split; [done|]. intros HL'. by destruct HL'.
Qed.

Lemma race_one_binding_witness :
  student_of_code "AB-1234" db_roster = Some (Student 1 "Amine Haddad" "AB-1234" 1) ∧
  access_requests db_roster !! 1 = None ∧
  "phone-A" ≠ "phone-B" ∧
  (3 ≤ turns true sched_in_turn)%nat ∧ (3 ≤ turns false sched_in_turn)%nat ∧
  race_db (race_run sched_in_turn (race_start "AB-1234" "phone-A" "phone-B" db_roster)) =
    set_access_requests <[1 := Request "phone-A" PENDING None 13]> db_roster ∧
  ¬ looked_first "AB-1234" "phone-A" "phone-B" db_roster false sched_in_turn.
Proof.
  assert (Hs : student_of_code "AB-1234" db_roster = Some (Student 1 "Amine Haddad" "AB-1234" 1))
    by reflexivity.
  assert (Hfresh : access_requests db_roster !! st_id (Student 1 "Amine Haddad" "AB-1234" 1) = None)
    by reflexivity.
  assert (Hne : "phone-A" ≠ "phone-B") by discriminate.
  assert (H1 : (3 ≤ turns true sched_in_turn)%nat) by (vm_compute; lia).
  assert (H2 : (3 ≤ turns false sched_in_turn)%nat) by (vm_compute; lia).
  split_and!; [done|done|done|done|done|reflexivity|].
  destruct (race_one_binding "AB-1234" "phone-A" "phone-B" db_roster _ sched_in_turn
              Hs Hfresh Hne) as [_ Hdone].
  destruct (Hdone H1 H2) as [t [(_ & _ & _ & _ & Hrefused)|(Hdb & _)]].
  - apply Hrefused. reflexivity.
  - apply (f_equal (λ x, rq_device_id <$> access_requests x !! 1)) in Hdb.
    vm_compute in Hdb. discriminate.
Defined.

(** C2 as stated fails.  Both handlers look the request up before either
    inserts: the first insert wins, the second is refused by the primary key,
    and the second handler answers the server error, not the device-mismatch
    refusal. *)
Lemma race_loser_counterexample :
  let c := race_run sched_alternate (race_start "AB-1234" "phone-A" "phone-B" db_roster) in
  student_of_code "AB-1234" db_roster = Some (Student 1 "Amine Haddad" "AB-1234" 1) ∧
  access_requests db_roster !! 1 = None ∧
  race_db c = set_access_requests <[1 := Request "phone-A" PENDING None 15]> db_roster ∧
  answer (race_first c) = Some (LoginStudent 1 "Amine Haddad" "AB-1234" PENDING None) ∧
  answer (race_second c) = Some (LoginServerError msg_login_error) ∧
  answer (race_second c) ≠ Some (LoginRefused msg_device_mismatch).
Proof. by split_and!. Qed.

(** When the second handler starts after the first has answered, it is
    refused with the device-mismatch text. *)
Example race_in_turn :
  let c := race_run sched_in_turn (race_start "AB-1234" "phone-A" "phone-B" db_roster) in
  answer (race_first c) = Some (LoginStudent 1 "Amine Haddad" "AB-1234" PENDING None) ∧
  answer (race_second c) = Some (LoginRefused msg_device_mismatch).
Proof. by split_and!. Qed.

(** ** A session *)

(** Import, a grade recorded under the student's code, login, approval: the
    view is unlocked and carries that grade; after a rejection it is locked
    again and the grade is withheld. *)
Example approve_then_view :
  let d := serve_all [(0, PostUpload [("Amine Haddad", "AB-1234")]);
                      (5, PostGrades "AB-1234" "Maths" (QArith_base.Qmake 31 2));
                      (10, PostLogin "AB-1234" "phone-A");
                      (20, PostApprove 1)] empty_db in
  (my_grades 30 1 d).1 = ViewUnlocked [] [] [("Maths", QArith_base.Qmake 31 2)] ∧
  (my_grades 50 1 (serve 40 (PostReject 1 (Some "late payment")) d)).1 =
    ViewLocked (Some true) "late payment" [] [].
Proof. by split. Qed.


(** * Further properties of the routes *)

(** ** Login, one request at a time *)

(** X1. What an answer of the login route tells its client.  A success
    carries the id and the name of the student the code selects and echoes
    the code, and the student's request row is then bound to the sender's
    device with the status sent.  The invalid-code refusal is sent only when
    no student has the code; the device-mismatch refusal only when the
    student's request row is bound to another device; and a refusal carries
    one of these two texts. *)
Theorem login_answer_shape now code device_id d :
  (∀ id name secret_code status message,
     (login now code device_id d).1 = LoginStudent id name secret_code status message →
     ∃ s r, student_of_code code d = Some s ∧
            id = st_id s ∧ name = st_name s ∧ secret_code = code ∧
            access_requests (login now code device_id d).2 !! id = Some r ∧
            rq_device_id r = device_id ∧ rq_status r = status) ∧
  ((login now code device_id d).1 = LoginRefused msg_invalid_code →
     ∀ s, s ∈ students d → st_code s ≠ code) ∧
  ((login now code device_id d).1 = LoginRefused msg_device_mismatch →
     ∃ s r, student_of_code code d = Some s ∧
            access_requests d !! st_id s = Some r ∧ rq_device_id r ≠ device_id) ∧
  (∀ m, (login now code device_id d).1 = LoginRefused m →
     m = msg_invalid_code ∨ m = msg_device_mismatch).
Proof.
  rewrite login_spec. destruct (student_of_code code d) as [s|] eqn:Hs; simpl.
  2:{ split_and!; [done| |done|intros m [= <-]; by left].
      intros _ s' Hin Hcode. unfold student_of_code in Hs. apply head_None in Hs.
      assert (Hs' : s' ∈ filter (λ x, st_code x = code) (students d))
        by (by apply list_elem_of_filter).
      rewrite Hs in Hs'. by inversion Hs'. }
  destruct (access_requests d !! st_id s) as [r|] eqn:Hr; simpl.
  - case_bool_decide as Hdev; [case_bool_decide as Hrej|]; simpl.
    + split_and!; [|done|done|done]. intros ????? [= <- <- <- <- <-].
      by exists s, r.
    + split_and!; [|done|done|done]. intros ????? [= <- <- <- <- <-].
      by exists s, r.
    + split_and!; [done|done| |intros m [= <-]; by right].
      intros _. by exists s, r.
  - split_and!; [|done|done|done]. intros ????? [= <- <- <- <- <-].
    eexists s, _. split_and!; [done|done|done|done|apply lookup_insert_eq|done|done].
Qed.

(** X2. A login removes no request row and changes none; the one row it may
    add is the row of the student the code selects; and it writes to no
    other table. *)
Theorem login_frame now code device_id d :
  let d' := (login now code device_id d).2 in
  (∀ sid r, access_requests d !! sid = Some r → access_requests d' !! sid = Some r) ∧
  (∀ sid, access_requests d !! sid = None → is_Some (access_requests d' !! sid) →
     ∃ s, student_of_code code d = Some s ∧ st_id s = sid ∧
          access_requests d' !! sid = Some (Request device_id PENDING None now)) ∧
  set_access_requests (λ _, access_requests d) d' = d.
Proof.
  rewrite login_spec. destruct (student_of_code code d) as [s|] eqn:Hs; simpl.
  2:{ split_and!; [done| |by destruct d]. intros sid -> [? [=]]. }
  destruct (access_requests d !! st_id s) as [r0|] eqn:Hr0; simpl.
  { split_and!; [done| |by destruct d]. intros sid -> [? [=]]. }
  split_and!.
  - intros sid r Hr. rewrite lookup_insert_ne; [done|]. congruence.
  - intros sid Hnone Hsome. destruct (decide (sid = st_id s)) as [->|Hne].
    + exists s. by rewrite lookup_insert_eq.
    + rewrite lookup_insert_ne, Hnone in Hsome by done. by destruct Hsome.
  - by destruct d.
Qed.



(** ** Admin routes *)

(** X4. [reset] for a student without a request row answers success and
    leaves the database as it was; and a second reset changes nothing the
    first has not. *)
Theorem reset_idempotent now now' d sid :
  (access_requests d !! sid = None → reset now sid d = (AdminDone true, d)) ∧
  (reset now' sid (reset now sid d).2).2 = (reset now sid d).2.
Proof.
  split.
  - intros Hnone. rewrite reset_spec. f_equal.
    apply set_access_requests_same. by apply delete_id.
  - simpl. apply set_access_requests_same. simpl. apply delete_id, lookup_delete_eq.
Qed.

(** X5. The admin routes overwrite: the last decision on a student stands,
    whatever came before it.  An approval wipes a rejection and its message,
    a rejection replaces an approval or an earlier reason, a reset wipes
    either, and neither decision brings back a row that was reset. *)
Theorem admin_last_write_wins n1 n2 d sid reason reason' :
  (approve n2 sid (reject n1 sid reason d).2).2 = (approve n2 sid d).2 ∧
  (reject n2 sid reason (approve n1 sid d).2).2 = (reject n2 sid reason d).2 ∧
  (reject n2 sid reason' (reject n1 sid reason d).2).2 = (reject n2 sid reason' d).2 ∧
  (reset n2 sid (approve n1 sid d).2).2 = (reset n2 sid d).2 ∧
  (reset n2 sid (reject n1 sid reason d).2).2 = (reset n2 sid d).2 ∧
  (approve n2 sid (reset n1 sid d).2).2 = (reset n1 sid d).2 ∧
  (reject n2 sid reason (reset n1 sid d).2).2 = (reset n1 sid d).2.
Proof.
  destruct d as [st m g a n s1 s2 s3 s4].
  unfold approve, reject, reset, try_catch; simpl. unfold set_access_requests; simpl.
  split_and!; f_equal; apply map_eq; intros i;
    (destruct (decide (i = sid)) as [->|Hne];
     [rewrite ?lookup_alter_eq, ?lookup_delete_eq, ?lookup_alter_eq, ?lookup_delete_eq;
      by destruct (m !! sid)
     |by rewrite ?lookup_alter_ne, ?lookup_delete_ne, ?lookup_alter_ne, ?lookup_delete_ne by done]).
Qed.

Lemma reset_idempotent_witness :
  access_requests db_roster !! 1 = None ∧
  reset 5 1 db_roster = (AdminDone true, db_roster).
Proof.
  split; [reflexivity|].
  destruct (reset_idempotent 5 6 db_roster 1) as [H _]. apply H. reflexivity.
Defined.

(** X6. An admin request about one student leaves every other student's
    request row as it was, creates no row, keeps the device and the date of
    the row it changes, and writes to no other table. *)
Theorem admin_frame now a d i :
  admin_target a = Some i →
  let d' := serve now a d in
  (∀ j, j ≠ i → access_requests d' !! j = access_requests d !! j) ∧
  (∀ r', access_requests d' !! i = Some r' →
     ∃ r, access_requests d !! i = Some r ∧
          rq_device_id r' = rq_device_id r ∧ rq_request_date r' = rq_request_date r) ∧
  set_access_requests (λ _, access_requests d) d' = d.
Proof.
  intros Ha. destruct a; simpl in Ha; try discriminate; injection Ha as ->; simpl.
  - split_and!; [by intros; rewrite lookup_alter_ne| |by destruct d].
    intros r'. rewrite lookup_alter_eq.
    destruct (access_requests d !! i) as [r|]; [|done]. intros [= <-]. eauto.
  - split_and!; [by intros; rewrite lookup_alter_ne| |by destruct d].
    intros r'. rewrite lookup_alter_eq.
    destruct (access_requests d !! i) as [r|]; [|done]. intros [= <-]. eauto.
  - split_and!; [by intros; rewrite lookup_delete_ne| |by destruct d].
    intros r'. by rewrite lookup_delete_eq.
Qed.

Lemma admin_frame_witness :
  access_requests (serve 70 (PostReject 2 (Some "late payment")) db_bound) !! 1 =
    access_requests db_bound !! 1.
Proof.
  destruct (admin_frame 70 (PostReject 2 (Some "late payment")) db_bound 2 eq_refl) as [H _].
  apply H. lia.
Defined.

(** X7. Admin requests about two different students commute: the database
    does not depend on which of them is served first. *)
Theorem admin_commute n1 n2 a b d i j :
  admin_target a = Some i →
  admin_target b = Some j →
  i ≠ j →
  serve n1 a (serve n2 b d) = serve n2 b (serve n1 a d).
Proof.
  intros Ha Hb Hne.
  destruct a; simpl in Ha; try discriminate; injection Ha as ->;
    destruct b; simpl in Hb; try discriminate; injection Hb as ->;
    destruct d as [st m g ab n s1 s2 s3 s4]; simpl; unfold set_access_requests; simpl;
    f_equal; apply map_eq; intros k;
    destruct (decide (k = i)) as [Hi|Hi]; destruct (decide (k = j)) as [Hj|Hj];
    try congruence; subst;
    repeat first
      [ rewrite lookup_alter_eq | rewrite lookup_delete_eq
      | rewrite lookup_alter_ne by congruence | rewrite lookup_delete_ne by congruence ];
    done.
Qed.

Lemma admin_commute_witness :
  serve 70 (PostApprove 1) (serve 71 (PostReset 2) db_bound) =
  serve 71 (PostReset 2) (serve 70 (PostApprove 1) db_bound).
Proof. apply (admin_commute 70 71 (PostApprove 1) (PostReset 2) db_bound 1 2); [done|done|lia]. Defined.

(** X8. In a reachable database, once a student's request is approved the
    grades route answers unlocked, with the student's notifications and
    absences and exactly the grades stored under the student's code; once it
    is reset the route answers locked, with [rejected] undefined, an empty
    reason and no grades. *)
Theorem approve_unlocks_reset_locks now now' d sid row :
  reachable d →
  access_requests d !! sid = Some row →
  ∃ s, student_of_id sid d = Some s ∧
    (my_grades now' sid (approve now sid d).2).1 =
      ViewUnlocked (select_notifications (st_code s) d) (select_absences (st_code s) d)
                   (select_grades (st_code s) d) ∧
    (my_grades now' sid (reset now sid d).2).1 =
      ViewLocked None "" (select_notifications (st_code s) d) (select_absences (st_code s) d).
Proof.
  intros Hreach Hrow. pose proof (reachable_inv d Hreach) as Hinv.
  destruct (inv_owner d Hinv sid) as (s & Hin & <-); [by rewrite Hrow|].
  pose proof (student_of_id_own d s Hinv Hin) as Hs.
  exists s. split; [done|]. rewrite !my_grades_spec. split.
  - change (student_of_id (st_id s) (approve now (st_id s) d).2)
      with (student_of_id (st_id s) d).
    rewrite Hs. simpl. by rewrite lookup_alter_eq, Hrow.
  - change (student_of_id (st_id s) (reset now (st_id s) d).2)
      with (student_of_id (st_id s) d).
    rewrite Hs. simpl. by rewrite lookup_delete_eq.
Qed.

Lemma approve_unlocks_reset_locks_witness :
  (my_grades 80 1 (approve 70 1 db_bound).2).1 = ViewUnlocked [] [] [] ∧
  (my_grades 80 1 (reset 70 1 db_bound).2).1 = ViewLocked None "" [] [].
Proof.
  destruct (approve_unlocks_reset_locks 70 80 db_bound 1 (Request "phone-A" PENDING None 10)
              db_bound_reachable eq_refl) as (s & Hs & H1 & H2).
  injection Hs as <-. split; [exact H1|exact H2].
Defined.

(** ** More invariants of reachable databases *)

(** Induction over the history that built a database. *)
Lemma reachable_induction (P : db → Prop) :
  P empty_db →
  (∀ now r d, reachable d → P d → P (serve now r d)) →
  ∀ d, reachable d → P d.
Proof.
  intros H0 Hstep d [h ->]. induction h as [|[now r] h IH] using rev_ind; [done|].
  unfold serve_all. rewrite foldl_app. simpl. apply Hstep; [by exists h|done].
Qed.

Lemma db_order_empty : db_order empty_db.
Proof.
  split; simpl.
  - constructor.
  - constructor.
  - intros n Hn. by inversion Hn.
  - intros sid r. by rewrite lookup_empty.
Qed.

Lemma db_order_requests f d :
  db_order d →
  (∀ sid r, f (access_requests d) !! sid = Some r →
     access_requests d !! sid = Some r ∨ (is_Some (rq_message r) → rq_status r = REJECTED)) →
  db_order (set_access_requests f d).
Proof.
  intros [Hs Hn Hq Hm] Hf. split; simpl; try done.
  intros sid r Hr. destruct (Hf _ _ Hr) as [Hold|Hnew]; eauto.
Qed.

Lemma db_order_insert_student now name code school d :
  db_inv d ∧ db_order d →
  db_inv (exec_query now (InsertStudent name code school) d).2 ∧
  db_order (exec_query now (InsertStudent name code school) d).2.
Proof.
  intros [Hinv Hord]. split; [by apply db_inv_insert_student|].
  destruct Hord as [Hs Hn Hq Hm]. simpl. case_bool_decide; simpl; split; simpl; try done.
  apply StronglySorted_app_2; [|done|repeat constructor].
  intros s1 s2 Hs1 ->%list_elem_of_singleton. simpl. by apply (inv_ids d Hinv).
Qed.

Lemma serve_order now r d : db_inv d → db_order d → db_order (serve now r d).
Proof.
  intros Hinv Hord. destruct r; simpl.
  - rewrite login_spec. destruct (student_of_code code d) as [s|]; [|done].
    destruct (access_requests d !! st_id s) as [r|] eqn:Hr; [done|]. simpl.
    apply db_order_requests; [done|]. intros sid r.
    destruct (decide (sid = st_id s)) as [->|Hne].
    + rewrite lookup_insert_eq. intros [= <-]. right. simpl. by intros [? [=]].
    + rewrite lookup_insert_ne by done. eauto.
  - by rewrite my_grades_spec.
  - apply db_order_requests; [done|]. intros sid r.
    destruct (decide (sid = student_id)) as [->|Hne].
    + rewrite lookup_alter_eq. destruct (access_requests d !! student_id); [|done].
      intros [= <-]. right. simpl. by intros [? [=]].
    + rewrite lookup_alter_ne by done. eauto.
  - apply db_order_requests; [done|]. intros sid r.
    destruct (decide (sid = student_id)) as [->|Hne].
    + rewrite lookup_alter_eq. destruct (access_requests d !! student_id); [|done].
      intros [= <-]. right. done.
    + rewrite lookup_alter_ne by done. eauto.
  - apply db_order_requests; [done|]. intros sid r.
    destruct (decide (sid = student_id)) as [->|Hne].
    + by rewrite lookup_delete_eq.
    + rewrite lookup_delete_ne by done. eauto.
  - apply (upload_keeps (λ d', db_inv d' ∧ db_order d')); [|done].
    intros. by apply db_order_insert_student.
  - by destruct Hord.
  - by destruct Hord.
  - destruct Hord as [Hs Hn Hq Hm]. split; simpl; try done.
    + apply StronglySorted_app_2; [|done|repeat constructor].
      intros n1 n2 Hn1 ->%list_elem_of_singleton. simpl. by apply Hq.
    + intros n [Hn'| ->%list_elem_of_singleton]%elem_of_app; [|simpl; lia].
      specialize (Hq n Hn'). lia.
Qed.

Lemma reachable_order d : reachable d → db_order d.
Proof.
  apply reachable_induction; [apply db_order_empty|].
  intros now r d' Hreach Hord. apply serve_order; [by apply reachable_inv|done].
Qed.

(** X9. In every reachable database a request's status is PENDING,
    APPROVED or REJECTED, and a request has a message only when its status
    is REJECTED: a pending or approved request has none. *)
Theorem message_only_when_rejected d sid r :
  reachable d →
  access_requests d !! sid = Some r →
  rq_status r ∈ [PENDING; APPROVED; REJECTED] ∧
  (is_Some (rq_message r) → rq_status r = REJECTED) ∧
  (rq_status r = PENDING ∨ rq_status r = APPROVED → rq_message r = None).
Proof.
  intros Hreach Hr.
  pose proof (ord_message d (reachable_order d Hreach) sid r Hr) as Hmsg.
  split_and!.
  - by apply (inv_status d (reachable_inv d Hreach) sid).
  - done.
  - intros Hst. destruct (rq_message r) as [m|]; [|done].
    assert (Hrej : rq_status r = REJECTED) by (apply Hmsg; eauto).
    rewrite Hrej in Hst. by destruct Hst.
Qed.

Lemma message_only_when_rejected_witness :
  rq_status (Request "phone-A" PENDING None 10) ∈ [PENDING; APPROVED; REJECTED].
Proof.
  apply (message_only_when_rejected db_bound 1 (Request "phone-A" PENDING None 10)
           db_bound_reachable eq_refl).
Defined.

(** The converse fails: a rejection sent without a reason leaves a rejected
    request with no message. *)
Example rejected_without_message :
  access_requests (serve 80 (PostReject 1 None) db_bound) !! 1 =
    Some (Request "phone-A" REJECTED None 10).
Proof. reflexivity. Qed.

(** Under the invariants the id of a request row selects one student row. *)
Lemma request_student_unique d sid :
  db_inv d → is_Some (access_requests d !! sid) →
  ∃ s, filter (λ s', st_id s' = sid) (students d) = [s].
Proof.
  intros Hinv Hsid. destruct (inv_owner d Hinv sid Hsid) as (s & Hin & <-).
  exists s. pose proof (inv_ids_distinct d Hinv) as Hnd. clear -Hnd Hin.
  induction (students d) as [|x l IH]; [by inversion Hin|].
  rewrite fmap_cons in Hnd. apply NoDup_cons in Hnd as [Hx Hnd].
  apply elem_of_cons in Hin as [->|Hin].
  - rewrite filter_cons_True by done. f_equal.
    destruct (filter (λ s', st_id s' = st_id x) l) as [|y l'] eqn:E; [done|].
    assert (Hy : y ∈ filter (λ s', st_id s' = st_id x) l) by (rewrite E; left).
    apply list_elem_of_filter in Hy as [Heq Hy]. destruct Hx. rewrite <- Heq.
    by apply list_elem_of_fmap_2.
  - rewrite filter_cons_False; [by apply IH|].
    intros Heq. apply Hx. rewrite Heq. by apply list_elem_of_fmap_2.
Qed.

(** X10. In every reachable database the student codes are pairwise
    distinct, the student ids grow with the insertion order and stay below
    the sequence, and the id of a request row selects exactly one student
    row. *)
Theorem reachable_keys d :
  reachable d →
  NoDup (st_code <$> students d) ∧
  StronglySorted (λ a b, st_id a < st_id b) (students d) ∧
  (∀ s, s ∈ students d → st_id s < students_id_seq d) ∧
  (∀ sid, is_Some (access_requests d !! sid) →
     ∃ s, filter (λ s', st_id s' = sid) (students d) = [s]).
Proof.
  intros Hreach. pose proof (reachable_inv d Hreach) as Hinv.
  pose proof (reachable_order d Hreach) as Hord.
  split_and!; [apply Hinv|apply Hord|apply Hinv|].
  intros sid Hsid. by apply request_student_unique.
Qed.

Lemma reachable_keys_witness :
  NoDup (st_code <$> students db_bound).
Proof. apply (reachable_keys db_bound db_bound_reachable). Defined.

(** X11. In a reachable database the grades route sends a non-empty
    [reject_reason] only together with [rejected: true]. *)
Theorem reject_reason_only_when_rejected now id d reason :
  reachable d →
  view_reject_reason (my_grades now id d).1 = Some reason →
  reason ≠ "" →
  view_rejected (my_grades now id d).1 = Some true.
Proof.
  intros Hreach. rewrite my_grades_spec. simpl.
  destruct (student_of_id id d) as [s|]; [|done].
  destruct (access_requests d !! id) as [r|] eqn:Hr; simpl; [|by intros [= <-]].
  case_bool_decide; [done|]. simpl.
  destruct (rq_message r) as [m|] eqn:Hm; [|by intros [= <-]].
  intros _ _. f_equal. apply bool_decide_eq_true_2.
  apply (ord_message d (reachable_order d Hreach) id r Hr). by rewrite Hm.
Qed.

Lemma reject_reason_only_when_rejected_witness :
  view_rejected (my_grades 90 1 (serve 80 (PostReject 1 (Some "late payment")) db_bound)).1 = Some true.
Proof.
  apply (reject_reason_only_when_rejected 90 1 _ "late payment").
  - apply reachable_serve, db_bound_reachable.
  - reflexivity.
  - discriminate.
Defined.

(** ** Notifications, grades and absences *)

Lemma insert_desc_last (n : notification_row) (l : list notification_row) :
  Forall (λ m, nt_id n < nt_id m) l → insert_desc n l = l ++ [n].
Proof.
  induction 1 as [|m l Hm Hl IH]; [done|]. simpl.
  rewrite bool_decide_eq_false_2 by lia. by rewrite IH.
Qed.

(** On ids that grow along the list, [ORDER BY id DESC] is the reversal. *)
Lemma order_by_id_desc_reverse (l : list notification_row) :
  StronglySorted (λ a b, nt_id a < nt_id b) l → order_by_id_desc l = reverse l.
Proof.
  induction 1 as [|n l Hl IH Hn]; [done|].
  unfold order_by_id_desc in *. simpl. rewrite IH, reverse_cons.
  apply insert_desc_last. by apply Forall_reverse.
Qed.

Lemma StronglySorted_filter {A} (R : relation A) (P : A → Prop) `{!∀ x, Decision (P x)}
    (l : list A) :
  StronglySorted R l → StronglySorted R (filter P l).
Proof.
  induction 1 as [|x l Hl IH Hx]; [constructor|].
  rewrite filter_cons. case_decide; [|done].
  constructor; [done|]. rewrite Forall_forall in Hx |- *.
  intros y Hy%list_elem_of_filter. apply Hx, Hy.
Qed.

(** X12. In a reachable database the notifications the grades route shows
    a student are those addressed to the student's code or to ['ALL'], the
    last recorded first. *)
Theorem notifications_newest_first code d :
  reachable d →
  select_notifications code d =
    reverse ((λ n, (nt_type n, nt_title n, nt_message n, nt_timestamp n)) <$>
               filter (λ n, nt_target_id n = code ∨ nt_target_id n = "ALL") (notifications d)).
Proof.
  intros Hreach. unfold select_notifications.
  rewrite order_by_id_desc_reverse, fmap_reverse; [done|].
  apply StronglySorted_filter, (ord_notifications d (reachable_order d Hreach)).
Qed.

Lemma notifications_newest_first_witness :
  select_notifications "AB-1234"
    (serve 95 (PostNotifications "info" "Sortie" "Vendredi" "ALL")
       (serve 94 (PostNotifications "info" "Bulletin" "Disponible" "AB-1234") db_bound)) =
  [("info", "Sortie", "Vendredi", 95); ("info", "Bulletin", "Disponible", 94)].
Proof.
  rewrite notifications_newest_first; [reflexivity|].
  do 2 apply reachable_serve. apply db_bound_reachable.
Defined.

(** X13. In a reachable database, recording a notification answers OK and
    puts it at the head of what every addressed student is shown (all
    students for the target ['ALL'], the student of that code otherwise);
    what the other students are shown does not change. *)
Theorem post_notifications_shown now type title message target_id d :
  reachable d →
  let d' := (post_notifications now type title message target_id d).2 in
  (post_notifications now type title message target_id d).1 = RecordOk ∧
  ∀ code,
    select_notifications code d' =
      if bool_decide (target_id = code ∨ target_id = "ALL")
      then (type, title, message, now) :: select_notifications code d
      else select_notifications code d.
Proof.
  intros Hreach d'. split; [done|]. intros code.
  assert (Hreach' : reachable d')
    by apply (reachable_serve now (PostNotifications type title message target_id) d Hreach).
  unfold select_notifications.
  rewrite !order_by_id_desc_reverse
    by (apply StronglySorted_filter, ord_notifications; by apply reachable_order).
  subst d'. simpl. rewrite filter_app, filter_singleton by exact [].
  simpl. case_decide; case_bool_decide; try tauto.
  - by rewrite reverse_snoc.
  - by rewrite app_nil_r.
Qed.

Lemma post_notifications_shown_witness :
  select_notifications "CD-5678" (post_notifications 95 "info" "Sortie" "Vendredi" "ALL" db_bound).2 =
    [("info", "Sortie", "Vendredi", 95)].
Proof.
  destruct (post_notifications_shown 95 "info" "Sortie" "Vendredi" "ALL" db_bound
              db_bound_reachable) as [_ H].
  rewrite H. reflexivity.
Defined.




(** ** Roster import *)

(** The import loop, row by row: what it counts, what it appends, and what
    it leaves alone. *)
Lemma upload_loop_spec now data :
  ∀ count d,
    ∃ d' added,
      run now (upload_loop data count) d =
        (Some (count + length (filter (λ p, p.1 ≠ "Inconnu") data))%nat, d') ∧
      students d' = students d ++ added ∧
      students_id_seq d' =
        students_id_seq d + Z.of_nat (length (filter (λ p, p.1 ≠ "Inconnu") data)) ∧
      set_students (λ _, students d) (students_id_seq d) d' = d ∧
      (length added ≤ length (filter (λ p, p.1 ≠ "Inconnu") data))%nat ∧
      NoDup (st_code <$> added) ∧
      Forall (λ s, st_school_id s = 1 ∧ (st_name s, st_code s) ∈ data ∧
                   st_name s ≠ "Inconnu" ∧ (st_code s ∉ (st_code <$> students d)) ∧
                   students_id_seq d ≤ st_id s) added ∧
      (∀ name c, (name, c) ∈ data → name ≠ "Inconnu" → c ∈ (st_code <$> students d')).
Proof.
  induction data as [|[name code] data IH]; intros count d.
  - exists d, []. simpl. rewrite Nat.add_0_r, app_nil_r, Z.add_0_r.
    split_and!; [done|done|done|by destruct d|done|constructor|constructor|].
    intros name c Hin. by inversion Hin.
  - cbn [upload_loop]. case_bool_decide as Hname.
    + rewrite filter_cons_True by done. cbn [run exec_query length].
      case_bool_decide as Hcode.
      * destruct (IH (S count) (set_students (λ l, l) (students_id_seq d + 1) d))
          as (d' & added & Hrun & Hst & Hseq & Hrest & Hlen & Hnd & Hadded & Hall).
        exists d', added. simpl in *.
        split_and!.
        -- rewrite Hrun. do 2 f_equal. lia.
        -- done.
        -- lia.
        -- destruct d, d'; unfold set_students in *; simpl in *. congruence.
        -- lia.
        -- done.
        -- eapply Forall_impl; [exact Hadded|]. intros s (? & ? & ? & ? & ?).
           split_and!; [done|by right|done|done|lia].
        -- intros n c [[= -> ->]|Hin]%elem_of_cons Hn.
           ++ rewrite Hst, fmap_app. apply elem_of_app. by left.
           ++ by apply (Hall n).
      * destruct (IH (S count)
                   (set_students (λ l, l ++ [Student (students_id_seq d) name code 1])
                      (students_id_seq d + 1) d))
          as (d' & added & Hrun & Hst & Hseq & Hrest & Hlen & Hnd & Hadded & Hall).
        exists d', (Student (students_id_seq d) name code 1 :: added). simpl in *.
        split_and!.
        -- rewrite Hrun. do 2 f_equal. lia.
        -- by rewrite Hst, <- app_assoc.
        -- lia.
        -- destruct d, d'; unfold set_students in *; simpl in *. congruence.
        -- lia.
        -- apply NoDup_cons. split; [|done].
           intros (s & Hc & Hs)%list_elem_of_fmap.
           rewrite Forall_forall in Hadded. destruct (Hadded s Hs) as (_ & _ & _ & Hnew & _).
           apply Hnew. rewrite fmap_app, <- Hc. apply elem_of_app. right. simpl. by left.
        -- constructor.
           ++ simpl. split_and!; [done|by left|done|done|lia].
           ++ eapply Forall_impl; [exact Hadded|]. intros s (? & ? & ? & Hnew & ?).
              split_and!; [done|by right|done| |lia].
              intros Hin. apply Hnew. rewrite fmap_app. apply elem_of_app. by left.
        -- intros n c [[= -> ->]|Hin]%elem_of_cons Hn.
           ++ rewrite Hst, !fmap_app. apply elem_of_app. left. apply elem_of_app. right.
              simpl. by left.
           ++ by apply (Hall n).
    + rewrite filter_cons_False by (simpl; tauto).
      destruct (IH count d)
        as (d' & added & Hrun & Hst & Hseq & Hrest & Hlen & Hnd & Hadded & Hall).
      exists d', added. split_and!; try done.
      * eapply Forall_impl; [exact Hadded|]. intros s (? & ? & ? & ? & ?).
        split_and!; [done|by right|done|done|done].
      * intros n c [[= -> ->]|Hin]%elem_of_cons Hn; [done|]. by apply (Hall n).
Qed.

(** X17. The import always commits.  The count it reports is the number of
    rows whose name is not "Inconnu", whether or not their insert met a code
    already there; the id sequence of the students advances by that count
    while the table may grow by less, so a skipped insert leaves a gap in
    the ids. *)
Theorem upload_count now data d :
  let n := length (filter (λ p, p.1 ≠ "Inconnu") data) in
  (upload now data d).1 = UploadDone n ∧
  students_id_seq (upload now data d).2 = students_id_seq d + Z.of_nat n ∧
  (length (students (upload now data d).2) ≤ length (students d) + n)%nat.
Proof.
  simpl. unfold upload.
  destruct (upload_loop_spec now data 0%nat d)
    as (d' & added & -> & Hst & Hseq & _ & Hlen & _). simpl.
  split_and!; [done|done|]. rewrite Hst, length_app. lia.
Qed.

(** A sheet that repeats a code: both rows are counted, one is stored, and
    the next id skips the one the second insert drew. *)
Example upload_conflict :
  let d := (upload 0 [("Amine Haddad", "AB-1234"); ("Sans nom", "AB-1234");
                      ("Inconnu", "ZZ-0000"); ("Lina Saidi", "CD-5678")] empty_db) in
  d.1 = UploadDone 3 ∧
  students d.2 = [Student 1 "Amine Haddad" "AB-1234" 1; Student 3 "Lina Saidi" "CD-5678" 1].
Proof. by split. Qed.

(** X18. The import keeps every student row in place and appends the new
    ones.  A row it appends comes from the sheet, has school 1, a name other
    than "Inconnu", an id from the sequence, and a code that no earlier row
    has: not a row that was there before the import, and not a row the same
    import appended.  After it every named row's code is the code of some
    student.  No other table is written. *)
Theorem upload_appends now data d :
  let d' := (upload now data d).2 in
  (∃ added,
     students d' = students d ++ added ∧
     NoDup (st_code <$> added) ∧
     Forall (λ s, st_school_id s = 1 ∧ (st_name s, st_code s) ∈ data ∧
                  st_name s ≠ "Inconnu" ∧ (st_code s ∉ (st_code <$> students d)) ∧
                  students_id_seq d ≤ st_id s) added ∧
     ∀ l1 s l2, added = l1 ++ s :: l2 → st_code s ∉ (st_code <$> students d ++ l1)) ∧
  (∀ name c, (name, c) ∈ data → name ≠ "Inconnu" → c ∈ (st_code <$> students d')) ∧
  access_requests d' = access_requests d ∧ grades d' = grades d ∧
  absences d' = absences d ∧ notifications d' = notifications d.
Proof.
  simpl. unfold upload.
  destruct (upload_loop_spec now data 0%nat d)
    as (d' & added & -> & Hst & Hseq & Hrest & Hlen & Hnd & Hadded & Hall). simpl.
  split_and!; [exists added; split_and!; try done|done|..];
    try (destruct d, d'; unfold set_students in Hrest; simpl in *; congruence).
  intros l1 s l2 -> Hin. rewrite fmap_app in Hin. apply elem_of_app in Hin as [Hin|Hin].
  - rewrite Forall_forall in Hadded.
    destruct (Hadded s) as (_ & _ & _ & Hnew & _); [|done].
    apply elem_of_app. right. by left.
  - rewrite fmap_app, fmap_cons in Hnd. apply NoDup_app in Hnd as (_ & Hdis & _).
    apply (Hdis (st_code s) Hin). by left.
Qed.

(** A sheet that repeats a code within itself stores it once. *)
Example upload_repeated_code :
  st_code <$> students (upload 0 [("Amine Haddad", "AB-1234"); ("Sans nom", "AB-1234")]
                          db_roster).2 =
    ["AB-1234"; "CD-5678"].
Proof. reflexivity. Qed.

(** X19. An import changes the answer of no login with a code that already
    selects a student: not the student, not the binding, not the status. *)
Theorem upload_keeps_logins now now' data code device_id d s :
  student_of_code code d = Some s →
  (login now' code device_id (upload now data d).2).1 = (login now' code device_id d).1.
Proof.
  intros Hs. rewrite !login_spec.
  pose proof (serve_student_of_code now (PostUpload data) d code s Hs) as Hs'.
  simpl in Hs'. rewrite Hs', Hs, upload_access_requests.
  by destruct (access_requests d !! st_id s).
Qed.

Lemma upload_keeps_logins_witness :
  (login 99 "AB-1234" "phone-B" (upload 98 [("Intrus", "AB-1234")] db_bound).2).1 =
    LoginRefused msg_device_mismatch.
Proof.
  rewrite (upload_keeps_logins 98 99 [("Intrus", "AB-1234")] "AB-1234" "phone-B" db_bound
             (Student 1 "Amine Haddad" "AB-1234" 1)); reflexivity.
Defined.

(** ** Student codes *)

Lemma charAt_chars i :
  (i < 26)%nat → ∃ c, charAt chars i = String c "" ∧ is_capital c = true.
Proof.
  intros Hi. do 26 (destruct i as [|i]; [by eexists|]). lia.
Qed.

Lemma charAt_nums i :
  (i < 10)%nat → ∃ c, charAt nums i = String c "" ∧ is_digit c = true.
Proof.
  intros Hi. do 10 (destruct i as [|i]; [by eexists|]). lia.
Qed.

(** The characters of a generated code. *)
Lemma generated_code_shape random k :
  in_range random →
  ∃ a b w x y z,
    generateStudentCode random k =
      String a (String b (String (Ascii.ascii_of_nat 45)
        (String w (String x (String y (String z EmptyString)))))) ∧
    is_capital a = true ∧ is_capital b = true ∧
    is_digit w = true ∧ is_digit x = true ∧ is_digit y = true ∧ is_digit z = true.
Proof.
  intros Hrange. unfold generateStudentCode. cbn [draw_chars].
  change (String.length chars) with 26%nat. change (String.length nums) with 10%nat.
  destruct (charAt_chars (random k 26%nat)) as (a & -> & Ha); [apply Hrange; lia|].
  destruct (charAt_chars (random (S k) 26%nat)) as (b & -> & Hb); [apply Hrange; lia|].
  destruct (charAt_nums (random (k + 2)%nat 10%nat)) as (w & -> & Hw); [apply Hrange; lia|].
  destruct (charAt_nums (random (S (k + 2)) 10%nat)) as (x & -> & Hx); [apply Hrange; lia|].
  destruct (charAt_nums (random (S (S (k + 2))) 10%nat)) as (y & -> & Hy); [apply Hrange; lia|].
  destruct (charAt_nums (random (S (S (S (k + 2)))) 10%nat)) as (z & -> & Hz);
    [apply Hrange; lia|].
  by exists a, b, w, x, y, z.
Qed.

(** X20. Whatever numbers are drawn, as long as each is an index into its
    alphabet, [generateStudentCode] returns seven characters: two capital
    letters, a dash and four digits. *)
Theorem generated_code_format random k :
  in_range random →
  code_format (generateStudentCode random k) = true ∧
  String.length (generateStudentCode random k) = 7%nat.
Proof.
  intros Hrange.
  destruct (generated_code_shape random k Hrange)
    as (a & b & w & x & y & z & -> & Ha & Hb & Hw & Hx & Hy & Hz).
  split; [|done]. simpl. by rewrite Ha, Hb, Hw, Hx, Hy, Hz.
Qed.

Lemma generated_code_format_witness :
  code_format (generateStudentCode (λ k m, (7 * k + 3) `mod` m)%nat 0) = true.
Proof.
  apply (generated_code_format (λ k m, (7 * k + 3) `mod` m)%nat 0).
  intros k m Hm. apply Nat.mod_upper_bound. lia.
Defined.

Example generated_code_sample :
  generateStudentCode (λ k m, (7 * k + 3) `mod` m)%nat 0 = "DK-7418".
Proof. reflexivity. Qed.

Lemma drawn_data_elem names random :
  ∀ k name c,
    (name, c) ∈ drawn_data names random k → name ≠ "Inconnu" →
    name ∈ names ∧ ∃ k', c = generateStudentCode random k'.
Proof.
  induction names as [|n names IH]; intros k name c Hin Hname; [by inversion Hin|].
  simpl in Hin. case_bool_decide as Hn.
  - apply elem_of_cons in Hin as [[= -> ->]|Hin].
    + split; [by left|by exists k].
    + destruct (IH _ _ _ Hin Hname) as [? ?]. split; [by right|done].
  - apply elem_of_cons in Hin as [[= -> ->]|Hin]; [done|].
    destruct (IH _ _ _ Hin Hname) as [? ?]. split; [by right|done].
Qed.

(** X21. When the import draws its codes with [generateStudentCode], every
    student row it appends has a code of two capital letters, a dash and
    four digits that no earlier row has (neither a row from before the
    import nor one the import appended), a name of the sheet other than
    "Inconnu", and school 1; the rows from before stay in place. *)
Theorem upload_drawn_students now names random k d :
  in_range random →
  ∃ added,
    students (upload_drawn now names random k d).2 = students d ++ added ∧
    Forall (λ s, code_format (st_code s) = true ∧ st_name s ∈ names ∧
                 st_name s ≠ "Inconnu" ∧ st_school_id s = 1) added ∧
    ∀ l1 s l2, added = l1 ++ s :: l2 → st_code s ∉ (st_code <$> students d ++ l1).
Proof.
  intros Hrange. unfold upload_drawn, upload.
  destruct (upload_loop_spec now (drawn_data names random k) 0%nat d)
    as (d' & added & -> & Hst & _ & _ & _ & Hnd & Hadded & _). simpl.
  exists added. split_and!; [done| |].
  - eapply Forall_impl; [exact Hadded|]. intros s (Hschool & Hin & Hname & _ & _).
    destruct (drawn_data_elem names random k _ _ Hin Hname) as [Hn [k' Hc]].
    split_and!; [|done|done|done]. rewrite Hc.
    destruct (generated_code_shape random k' Hrange)
      as (a & b & w & x & y & z & -> & Ha & Hb & Hw & Hx & Hy & Hz).
    simpl. by rewrite Ha, Hb, Hw, Hx, Hy, Hz.
  - intros l1 s l2 -> Hin. rewrite fmap_app in Hin. apply elem_of_app in Hin as [Hin|Hin].
    + rewrite Forall_forall in Hadded.
      destruct (Hadded s) as (_ & _ & _ & Hnew & _); [|done].
      apply elem_of_app. right. by left.
    + rewrite fmap_app, fmap_cons in Hnd. apply NoDup_app in Hnd as (_ & Hdis & _).
      apply (Hdis (st_code s) Hin). by left.
Qed.

Lemma upload_drawn_students_witness :
  ∃ added,
    students (upload_drawn 0 ["Amine Haddad"; "Inconnu"; "Lina Saidi"]
                (λ k m, (7 * k + 3) `mod` m)%nat 0 empty_db).2 = added ∧
    Forall (λ s, code_format (st_code s) = true) added.
Proof.
  destruct (upload_drawn_students 0 ["Amine Haddad"; "Inconnu"; "Lina Saidi"]
              (λ k m, (7 * k + 3) `mod` m)%nat 0 empty_db) as (added & Hst & Hfmt & _).
  - intros k m Hm. apply Nat.mod_upper_bound. lia.
  - exists added. split; [exact Hst|].
    eapply Forall_impl; [exact Hfmt|]. by intros s (? & _).
Defined.

Example upload_drawn_sample :
  students (upload_drawn 0 ["Amine Haddad"; "Inconnu"; "Lina Saidi"]
              (λ k m, (7 * k + 3) `mod` m)%nat 0 empty_db).2 =
    [Student 1 "Amine Haddad" "DK-7418" 1; Student 2 "Lina Saidi" "TA-9630" 1].
Proof. reflexivity. Qed.

(** ** The listing routes *)

Lemma by_id_desc_reverse (l : list student_row) :
  StronglySorted (λ a b, st_id a < st_id b) l → StronglySorted by_id_desc (reverse l).
Proof.
  induction 1 as [|x l Hl IH Hx]; [constructor|].
  rewrite reverse_cons. apply StronglySorted_app_2; [|done|repeat constructor].
  intros y z Hy ->%list_elem_of_singleton. rewrite elem_of_reverse in Hy.
  rewrite Forall_forall in Hx. specialize (Hx y Hy). unfold by_id_desc. lia.
Qed.

Lemma same_key_same_row {A K} (key : A → K) (l : list A) x y :
  NoDup (key <$> l) → x ∈ l → y ∈ l → key x = key y → x = y.
Proof.
  induction l as [|z l IH]; intros Hnd Hx Hy Heq; [by inversion Hx|].
  rewrite fmap_cons in Hnd. apply NoDup_cons in Hnd as [Hz Hnd].
  apply elem_of_cons in Hx as [->|Hx]; apply elem_of_cons in Hy as [->|Hy].
  - done.
  - destruct Hz. rewrite Heq. by apply list_elem_of_fmap_2.
  - destruct Hz. rewrite <- Heq. by apply list_elem_of_fmap_2.
  - by apply IH.
Qed.

(** X22. In a reachable database [GET /api/students] lists every student
    row once, the last imported first. *)
Theorem list_students_newest_first d :
  reachable d → list_students d = reverse (students d).
Proof.
  intros Hreach. pose proof (reachable_inv d Hreach) as Hinv.
  assert (Htrans : Transitive by_id_desc) by (intros x y z; unfold by_id_desc; lia).
  assert (Htotal : Total by_id_desc) by (intros x y; unfold by_id_desc; lia).
  assert (Hperm : list_students d ≡ₚ students d) by apply merge_sort_Permutation.
  apply (StronglySorted_unique_strong by_id_desc).
  - intros x y Hx Hy Hxy Hyx. rewrite Hperm in Hx. rewrite elem_of_reverse in Hy.
    apply (same_key_same_row st_id (students d)); [apply Hinv|done|done|].
    unfold by_id_desc in *. lia.
  - by apply StronglySorted_merge_sort.
  - apply by_id_desc_reverse, (ord_students d (reachable_order d Hreach)).
  - by rewrite Hperm, reverse_Permutation.
Qed.

Lemma list_students_newest_first_witness :
  list_students db_bound =
    [Student 2 "Lina Saidi" "CD-5678" 1; Student 1 "Amine Haddad" "AB-1234" 1].
Proof. rewrite (list_students_newest_first db_bound db_bound_reachable). reflexivity. Defined.

Lemma length_bind_singletons {A B} (g : A → list B) (l : list A) :
  (∀ x, x ∈ l → ∃ y, g x = [y]) → length (l ≫= g) = length l.
Proof.
  induction l as [|x l IH]; intros Hg; [done|].
  rewrite bind_cons, length_app. destruct (Hg x) as [y ->]; [by left|].
  simpl. f_equal. apply IH. intros z Hz. apply Hg. by right.
Qed.

(** X23. [GET /api/admin/requests] lists the request rows joined with their
    students, dates never increasing down the list: a row is listed exactly
    when its request row exists and a student row has that id, with the
    student's name and code and the request's status, message and date.  In
    a reachable database every request is listed once: the list is as long
    as the table. *)
Theorem list_requests_sorted d :
  Sorted by_date_desc (list_requests d) ∧
  (∀ row, row ∈ list_requests d ↔
     ∃ r s, access_requests d !! ad_student_id row = Some r ∧
            s ∈ students d ∧ st_id s = ad_student_id row ∧
            row = AdminRow (st_id s) (st_name s) (st_code s)
                    (rq_status r) (rq_message r) (rq_request_date r)) ∧
  (reachable d → length (list_requests d) = size (access_requests d)).
Proof.
  assert (Htotal : Total by_date_desc) by (intros x y; unfold by_date_desc; lia).
  assert (Hperm : list_requests d ≡ₚ join_requests d) by apply merge_sort_Permutation.
  split_and!.
  - by apply Sorted_merge_sort.
  - intros row. rewrite Hperm. unfold join_requests. rewrite list_elem_of_bind. split.
    + intros ([sid r] & Hrow & Har). apply elem_of_map_to_list in Har.
      apply list_elem_of_fmap in Hrow as (s & -> & [Hid Hs]%list_elem_of_filter).
      simpl in *. exists r, s. subst sid. split_and!; done.
    + intros (r & s & Hr & Hs & Hid & ->). simpl in Hr.
      exists (st_id s, r). split; [|by apply elem_of_map_to_list].
      apply list_elem_of_fmap. exists s. split; [done|]. by apply list_elem_of_filter.
  - intros Hreach. rewrite Hperm, <- length_map_to_list. unfold join_requests.
    apply length_bind_singletons. intros [sid r] Har%elem_of_map_to_list. simpl.
    destruct (request_student_unique d sid (reachable_inv d Hreach)) as [s ->];
      [by rewrite Har|].
    by eexists.
Qed.

Lemma list_requests_sorted_witness :
  length (list_requests db_bound) = size (access_requests db_bound).
Proof. apply (list_requests_sorted db_bound), db_bound_reachable. Defined.

Example list_requests_sample :
  list_requests (serve 20 (PostLogin "CD-5678" "phone-C") (serve 15 (PostReject 1 (Some "retard")) db_bound)) =
    [AdminRow 2 "Lina Saidi" "CD-5678" PENDING None 20;
     AdminRow 1 "Amine Haddad" "AB-1234" REJECTED (Some "retard") 10].
Proof. reflexivity. Qed.

(** ** What no route does *)

Lemma serve_prefix now r d :
  students d `prefix_of` students (serve now r d) ∧
  grades d `prefix_of` grades (serve now r d) ∧
  absences d `prefix_of` absences (serve now r d) ∧
  notifications d `prefix_of` notifications (serve now r d).
Proof.
  destruct r; simpl.
  - rewrite login_spec. destruct (student_of_code code d) as [s|]; [|done].
    by destruct (access_requests d !! st_id s).
  - by rewrite my_grades_spec.
  - done.
  - done.
  - done.
  - unfold upload. destruct (upload_loop_spec now data 0%nat d)
      as (d' & added & -> & Hst & _ & Hrest & _). simpl.
    split; [by exists added|].
    destruct d, d'; unfold set_students in Hrest; simpl in *.
    by inversion Hrest.
  - split_and!; try done. by eexists.
  - split_and!; try done. by eexists.
  - split_and!; try done. by eexists.
Qed.

(** X24. No route deletes or rewrites a student, a grade, an absence or a
    notification: over any history each of these tables keeps its rows, in
    place, and only grows at its end. *)
Theorem tables_append_only h d :
  students d `prefix_of` students (serve_all h d) ∧
  grades d `prefix_of` grades (serve_all h d) ∧
  absences d `prefix_of` absences (serve_all h d) ∧
  notifications d `prefix_of` notifications (serve_all h d).
Proof.
  revert d. induction h as [|[now r] h IH]; intros d; [done|]. simpl.
  destruct (serve_prefix now r d) as (H1 & H2 & H3 & H4).
  destruct (IH (serve now r d)) as (I1 & I2 & I3 & I4).
  split_and!; etrans; eauto.
Qed.

(** X25. In a reachable database, after an approval a login with the
    student's code from the bound device answers success with status
    APPROVED and no message key, also when the request had been rejected
    with a reason before; it writes nothing. *)
Theorem approve_then_login now now' d sid row :
  reachable d →
  access_requests d !! sid = Some row →
  let d1 := (approve now sid d).2 in
  ∃ s, student_of_id sid d = Some s ∧
       login now' (st_code s) (rq_device_id row) d1 =
         (LoginStudent sid (st_name s) (st_code s) APPROVED None, d1).
Proof.
  intros Hreach Hrow d1. pose proof (reachable_inv d Hreach) as Hinv.
  destruct (inv_owner d Hinv sid) as (s & Hin & <-); [by rewrite Hrow|].
  exists s. split; [by apply student_of_id_own|].
  rewrite login_spec.
  change (student_of_code (st_code s) d1) with (student_of_code (st_code s) d).
  rewrite (student_of_code_own d s Hinv Hin). subst d1. simpl.
  rewrite lookup_alter_eq, Hrow. simpl. by rewrite bool_decide_eq_true_2.
Qed.

Lemma approve_then_login_witness :
  login 90 "AB-1234" "phone-A"
    (approve 85 1 (serve 80 (PostReject 1 (Some "late payment")) db_bound)).2 =
  (LoginStudent 1 "Amine Haddad" "AB-1234" APPROVED None,
   (approve 85 1 (serve 80 (PostReject 1 (Some "late payment")) db_bound)).2).
Proof.
  destruct (approve_then_login 85 90 (serve 80 (PostReject 1 (Some "late payment")) db_bound) 1
              (Request "phone-A" REJECTED (Some "late payment") 10)
              (reachable_serve _ _ _ db_bound_reachable) eq_refl) as (s & Hs & H).
  injection Hs as <-. exact H.
Defined.

(** ** Two logins of one device in flight *)

Section twins.
Variables (d : db) (s : student_row) (code device_id : string).
Hypothesis Hstudent : student_of_code code d = Some s.
Hypothesis Hfresh : access_requests d !! st_id s = None.

(** Once the row of the device is written, the other handler of that device
    ends with success or with the server error, and writes nothing. *)
Lemma twin_at_step t n p now :
  twin_at (st_id s) (st_name s) code device_id n p →
  let d' := set_access_requests <[st_id s := Request device_id PENDING None t]> d in
  ∃ p', thread_step (LoginServerError msg_login_error) now p d' = (p', d') ∧
        twin_at (st_id s) (st_name s) code device_id (pred n) p'.
Proof.
  intros [n' p' [| |]|n'|n'] d'.
  - eexists. split; [|apply twin_running, login_at_found].
    cbn [thread_step login_body exec_query].
    change (select_student_by_code code d') with (select_student_by_code code d).
    by rewrite (select_student_found d s code Hstudent).
  - eexists. split; [|apply twin_granted].
    cbn [thread_step login_found exec_query]. unfold select_request, d'. simpl.
    rewrite lookup_insert_eq. simpl. by rewrite bool_decide_eq_true_2.
  - eexists. split; [|apply twin_failed].
    cbn [thread_step login_insert exec_query]. unfold d'. simpl.
    by rewrite lookup_insert_eq.
  - eexists. split; [done|apply twin_granted].
  - eexists. split; [done|apply twin_failed].
Qed.

Lemma twin_inv_step (pick : bool) now n1 n2 c :
  twin_inv d s code device_id n1 n2 c →
  twin_inv d s code device_id
    (if pick then pred n1 else n1) (if pick then n2 else pred n2) (race_step pick now c).
Proof.
  intros [m1 m2 p1 p2 H1 H2|t m2 p2 H2|t m1 p1 H1]; unfold race_step;
    cbn [race_db race_first race_second]; destruct pick.
  - destruct (login_at_step_open d s code Hstudent Hfresh device_id m1 p1 now H1)
      as [(p' & -> & _ & H')|[-> ->]].
    + by apply twin_open.
    + apply twin_first_wrote. by apply twin_running.
  - destruct (login_at_step_open d s code Hstudent Hfresh device_id m2 p2 now H2)
      as [(p' & -> & _ & H')|[-> ->]].
    + by apply twin_open.
    + apply twin_second_wrote. by apply twin_running.
  - by apply twin_first_wrote.
  - destruct (twin_at_step t m2 p2 now H2) as (p' & -> & H'). by apply twin_first_wrote.
  - destruct (twin_at_step t m1 p1 now H1) as (p' & -> & H'). by apply twin_second_wrote.
  - by apply twin_second_wrote.
Qed.

Lemma twin_inv_run sched n1 n2 c :
  twin_inv d s code device_id n1 n2 c →
  twin_inv d s code device_id
    (n1 - turns true sched) (n2 - turns false sched) (race_run sched c).
Proof.
  revert n1 n2 c. induction sched as [|[pick now] sched IH]; intros n1 n2 c Hc.
  - unfold turns. simpl. by rewrite !Nat.sub_0_r.
  - apply (twin_inv_step pick now) in Hc. apply IH in Hc.
    rewrite !turns_cons. destruct pick; simpl in *.
    + by replace (n1 - S (turns true sched))%nat
        with (pred n1 - turns true sched)%nat by lia.
    + by replace (n2 - S (turns false sched))%nat
        with (pred n2 - turns false sched)%nat by lia.
Qed.
End twins.

(** X26. Two first logins sent at once by one device for the code of a
    student without a request row (a form submitted twice): once both
    handlers have run, the table holds the one row of that device, at least
    one handler has answered success with PENDING, and the other has
    answered the same success or the server error of its [catch]; neither is
    refused for a device mismatch. *)
Theorem twin_race code device_id d s sched :
  student_of_code code d = Some s →
  access_requests d !! st_id s = None →
  (3 ≤ turns true sched)%nat →
  (3 ≤ turns false sched)%nat →
  let c := race_run sched (race_start code device_id device_id d) in
  let granted := Some (LoginStudent (st_id s) (st_name s) code PENDING None) in
  let failed := Some (LoginServerError msg_login_error) in
  (∃ t, race_db c = set_access_requests <[st_id s := Request device_id PENDING None t]> d) ∧
  (answer (race_first c) = granted ∨ answer (race_second c) = granted) ∧
  (answer (race_first c) = granted ∨ answer (race_first c) = failed) ∧
  (answer (race_second c) = granted ∨ answer (race_second c) = failed).
Proof.
  intros Hs Hfresh H1 H2 c granted failed.
  assert (Hstart : twin_inv d s code device_id 3 3 (race_start code device_id device_id d))
    by (apply twin_open; apply login_at_start).
  apply (twin_inv_run d s code device_id Hs Hfresh sched) in Hstart. fold c in Hstart.
  remember (3 - turns true sched)%nat as z1 eqn:Hz1.
  remember (3 - turns false sched)%nat as z2 eqn:Hz2.
  destruct Hstart as [n1 n2 p1 p2 Hp1 Hp2|t n2 p2 Hp2|t n1 p1 Hp1].
  - destruct Hp1; lia.
  - destruct Hp2 as [n p Hp| |]; [destruct Hp; lia|..]; simpl;
      (split_and!; [by exists t|by left|by left|]); [by left|by right].
  - destruct Hp1 as [n p Hp| |]; [destruct Hp; lia|..]; simpl;
      (split_and!; [by exists t|by right| |by left]); [by left|by right].
Qed.

Lemma twin_race_witness :
  answer (race_first (race_run sched_alternate
            (race_start "AB-1234" "phone-A" "phone-A" db_roster))) =
    Some (LoginStudent 1 "Amine Haddad" "AB-1234" PENDING None) ∨
  answer (race_second (race_run sched_alternate
            (race_start "AB-1234" "phone-A" "phone-A" db_roster))) =
    Some (LoginStudent 1 "Amine Haddad" "AB-1234" PENDING None).
Proof.
  destruct (twin_race "AB-1234" "phone-A" db_roster (Student 1 "Amine Haddad" "AB-1234" 1)
              sched_alternate) as (_ & H & _); [reflexivity|reflexivity|vm_compute; lia..|].
  exact H.
Defined.

(** When both handlers look the request up before either inserts, the
    second answers the server error although the device is the bound one. *)
Example twin_race_fails :
  answer (race_second (race_run sched_alternate
            (race_start "AB-1234" "phone-A" "phone-A" db_roster))) =
    Some (LoginServerError msg_login_error).
Proof. reflexivity. Qed.

(** ** What a client of a reachable database is sent *)

(** X27. In a reachable database a successful login carries one of the
    three statuses, and its body has a [message] key exactly when the status
    is REJECTED.  The key then holds the stored message, which is [NULL] when
    the rejection gave no reason; and a body without the key hides nothing:
    the student's request then has no message. *)
Theorem login_answer_message now code device_id d id name secret_code status message :
  reachable d →
  (login now code device_id d).1 = LoginStudent id name secret_code status message →
  status ∈ [PENDING; APPROVED; REJECTED] ∧
  (is_Some message ↔ status = REJECTED) ∧
  ∃ r, access_requests (login now code device_id d).2 !! id = Some r ∧
       rq_status r = status ∧
       match message with
       | Some m => rq_message r = m
       | None => rq_message r = None
       end.
Proof.
  intros Hreach. rewrite login_spec.
  destruct (student_of_code code d) as [s|]; [|done]. simpl.
  destruct (access_requests d !! st_id s) as [r|] eqn:Hr; simpl.
  - pose proof (inv_status d (reachable_inv d Hreach) _ r Hr) as Hst.
    pose proof (ord_message d (reachable_order d Hreach) _ r Hr) as Hmsg.
    case_bool_decide; [|done]. case_bool_decide as Hrej; intros [= <- <- <- <- <-].
    + split_and!; [by repeat constructor|done|]. by exists r.
    + split_and!; [done| |].
      * split; [by intros [? [=]]|done].
      * exists r. split_and!; [done|done|].
        destruct (rq_message r) as [m|]; [|done]. destruct Hrej. apply Hmsg. eauto.
  - intros [= <- <- <- <- <-]. split_and!; [by repeat constructor| |].
    + split; [by intros [? [=]]|done].
    + eexists. split; [apply lookup_insert_eq|done].
Qed.

Lemma login_answer_message_witness :
  is_Some (Some (Some "late payment")) ↔ REJECTED = REJECTED.
Proof.
  apply (login_answer_message 90 "AB-1234" "phone-A"
           (serve 80 (PostReject 1 (Some "late payment")) db_bound)
           1 "Amine Haddad" "AB-1234" REJECTED (Some (Some "late payment"))).
  - apply reachable_serve, db_bound_reachable.
  - reflexivity.
Defined.

(** After a rejection without a reason the body has the key, holding [NULL]. *)
Example login_rejected_without_reason :
  (login 90 "AB-1234" "phone-A" (serve 80 (PostReject 1 None) db_bound)).1 =
    LoginStudent 1 "Amine Haddad" "AB-1234" REJECTED (Some None).
Proof. reflexivity. Qed.

(** ** The gate of the grades route *)

(** X28. For an id that selects a student, the grades route answers with the
    student's notifications and absences whatever the access status; it is
    unlocked and carries the grades stored under the student's code exactly
    when the stored status is APPROVED; otherwise it is locked with an empty
    grades list, and [rejected] is the boolean "status is REJECTED" when a
    request row exists and [undefined] when none exists. *)
Theorem my_grades_gate_of_student now id d s :
  student_of_id id d = Some s →
  ∃ v, my_grades now id d = (v, d) ∧
    view_notifications v = Some (select_notifications (st_code s) d) ∧
    view_absences v = Some (select_absences (st_code s) d) ∧
    match access_requests d !! id with
    | Some row =>
        if bool_decide (rq_status row = APPROVED)
        then view_locked v = Some false ∧
             view_grades v = Some (select_grades (st_code s) d)
        else view_locked v = Some true ∧
             view_grades v = Some [] ∧
             view_rejected v = Some (bool_decide (rq_status row = REJECTED))
    | None =>
        view_locked v = Some true ∧
        view_grades v = Some [] ∧
        view_rejected v = None
    end.
Proof.
  intros Hs. rewrite my_grades_spec, Hs.
  eexists. split; [reflexivity|].
  destruct (access_requests d !! id) as [row|]; [|done].
  by case_bool_decide.
Qed.

Lemma my_grades_gate_of_student_witness :
  ∃ v, my_grades 30 1 db_bound = (v, db_bound) ∧ view_locked v = Some true.
Proof.
  destruct (my_grades_gate_of_student 30 1 db_bound (Student 1 "Amine Haddad" "AB-1234" 1)
              eq_refl) as (v & Hv & _ & _ & Hlock & _).
  by exists v.
Defined.
